(** * uni-api: provider selection, failover and payload translation

    A shallow embedding of [main.py]: the pydantic request classes, the
    payload built by [process_request], and the failover loop of
    [ModelRequestHandler].  Python ints are [Z], [str] is [string], a [dict]
    with string keys is a [gmap string _], [None]-able fields are [option].
    Output written with [print], the requests sent through the shared HTTP
    client and the handler's cursor are threaded through an explicit state. *)

From Stdlib Require Import ZArith Ascii String List.
From stdpp Require Import base numbers option list gmap strings.

Open Scope Z_scope.
Open Scope string_scope.

(** ** Python values *)

(** The values that end up in payloads and in decoded JSON bodies. *)
#[warnings="-register-all"]
Inductive PyValue : Type :=
| PyNone
| PyBool (b : bool)
| PyInt (z : Z)
| PyStr (s : string)
| PyList (l : list PyValue)
| PyDict (d : list (string * PyValue)).

(** [sep.join(items)]: the items left to right, [sep] before every item but
    the first. *)
Definition str_join (sep : string) (items : list string) : string :=
  match items with
  | [] => ""
  | first :: rest => fold_left (fun acc s => acc +:+ sep +:+ s) rest first
  end.

(** [c.lower()] and [s.lower()] on ASCII text: the letters A-Z are mapped to
    a-z and every other byte is kept, which is all that a comparison with an
    ASCII word depends on. *)
Definition ascii_lower (c : ascii) : ascii :=
  let n := nat_of_ascii c in
  if (Nat.leb 65 n && Nat.leb n 90)%bool then ascii_of_nat (n + 32) else c.

Fixpoint str_lower (s : string) : string :=
  match s with
  | EmptyString => EmptyString
  | String c rest => String (ascii_lower c) (str_lower rest)
  end.

(** [l[i]] on a Python list: a negative index counts from the end, an index
    outside [-len, len) raises IndexError (here [None]). *)
Definition py_getitem {A : Type} (l : list A) (i : Z) : option A :=
  let n := Z.of_nat (length l) in
  if bool_decide (0 <= i < n) then l !! Z.to_nat i
  else if bool_decide (- n <= i < 0) then l !! Z.to_nat (n + i)
  else None.

(** ** Request classes (pydantic models) *)

Module ContentItem.
Record t : Type := Build { type : string; text : string }.
End ContentItem.

(** [content: Union[str, List[ContentItem]]] *)
Inductive Content : Type :=
| ContentStr (s : string)
| ContentList (items : list ContentItem.t).

Module Message.
Record t : Type := Build { role : string; content : Content }.
End Message.

Module RequestModel.

Record t : Type := Build {
  model : string;
  messages : list Message.t;
  logprobs : option bool;
  top_logprobs : option Z;
  stream : option bool;
  include_usage : option bool
}.

(** A key of the inbound JSON body that has a default: it is left out, or it
    is given with [null] or with a value. *)
Inductive field (A : Type) : Type :=
| omitted
| given (v : option A).
Arguments omitted {A}.
Arguments given {A} v.

Record body : Type := Body {
  body_model : string;
  body_messages : list Message.t;
  body_logprobs : field bool;
  body_top_logprobs : field Z;
  body_stream : field bool;
  body_include_usage : field bool
}.

Definition with_default {A : Type} (default : option A) (f : field A) : option A :=
  match f with
  | omitted => default
  | given v => v
  end.

(** Building a [RequestModel] from a body: a key that is left out takes the default declared
    in the class ([logprobs = False], [top_logprobs = None], [stream = False],
    [include_usage = False]); a given key keeps its value, [null] included. *)
Definition init (b : body) : t :=
  {| model := body_model b;
     messages := body_messages b;
     logprobs := with_default (Some false) (body_logprobs b);
     top_logprobs := with_default None (body_top_logprobs b);
     stream := with_default (Some false) (body_stream b);
     include_usage := with_default (Some false) (body_include_usage b) |}.

End RequestModel.

(** ** Provider registry *)

(** One entry of [config], the list loaded from [api.yaml]:
    [{provider: str, base_url: str, api: str, model: [str]}]. *)
Module Provider.
Record t : Type := Build {
  provider : string;
  base_url : string;
  api : string;
  model : list string
}.
End Provider.

(** ** Payload translation (the pure part of [process_request]) *)

(** [" ".join([item.text for item in msg.content if item.type == "text"])],
    or the string itself. *)
Fixpoint text_items (items : list ContentItem.t) : list string :=
  match items with
  | [] => []
  | item :: rest =>
      if String.eqb (ContentItem.type item) "text"
      then ContentItem.text item :: text_items rest
      else text_items rest
  end.

Definition flatten_content (c : Content) : string :=
  match c with
  | ContentList items => str_join " " (text_items items)
  | ContentStr s => s
  end.

(** The loop [for msg in request.messages: ... messages.append({...})]. *)
Definition convert_messages (msgs : list Message.t) : list PyValue :=
  fold_left
    (fun (messages : list PyValue) msg =>
       let content := flatten_content (Message.content msg) in
       (messages ++ [PyDict [("role", PyStr (Message.role msg));
                             ("content", PyStr content)]])%list)
    msgs [].

Definition request_headers (provider : Provider.t) : gmap string string :=
  <["Content-Type" := "application/json"]>
    (<["Authorization" := "Bearer " +:+ Provider.api provider]> ∅).

(** [d[k] = v] only when the optional value is not [None]. *)
Definition set_if_not_none {A : Type} (k : string) (inj : A -> PyValue) (o : option A)
    (d : gmap string PyValue) : gmap string PyValue :=
  match o with
  | Some v => <[k := inj v]> d
  | None => d
  end.

Definition request_payload (request : RequestModel.t) (provider : Provider.t)
    : gmap string PyValue :=
  let messages := convert_messages (RequestModel.messages request) in
  let payload :=
    <["messages" := PyList messages]>
      (<["model" := PyStr (RequestModel.model request)]> ∅) in
  let payload := set_if_not_none "stream" PyBool (RequestModel.stream request) payload in
  let payload :=
    set_if_not_none "include_usage" PyBool (RequestModel.include_usage request) payload in
  if String.eqb (Provider.provider provider) "anthropic"
  then <["max_tokens" := PyInt 1000]> payload
  else
    let payload := set_if_not_none "logprobs" PyBool (RequestModel.logprobs request) payload in
    set_if_not_none "top_logprobs" PyInt (RequestModel.top_logprobs request) payload.

(** ** Effects: exceptions, printed lines, the HTTP client, the cursor *)

Inductive Exn : Type :=
| HTTPException (status_code : Z) (detail : string)
| TransportError (msg : string)      (* raised by the HTTP client *)
| JSONDecodeError                    (* raised by [response.json()] *)
| IndexError.

Inductive Result (A : Type) : Type :=
| Ok (a : A)
| Raise (e : Exn).
Arguments Ok {A} a.
Arguments Raise {A} e.

Definition is_raise {A : Type} (r : Result A) : bool :=
  match r with
  | Ok _ => false
  | Raise _ => true
  end.

(** One outbound call: [(url, headers, payload)]. *)
Record Outbound : Type := {
  out_url : string;
  out_headers : gmap string string;
  out_payload : gmap string PyValue
}.

(** The async generator object made by calling [fetch_response_stream]: its
    body has not run yet. *)
Inductive AsyncGen : Type :=
| FetchResponseStream (call : Outbound).

(** What [process_request] returns: the decoded JSON body, or a
    [StreamingResponse] around a generator. *)
Inductive Response : Type :=
| JSONBody (v : PyValue)
| StreamingResponse (content : AsyncGen) (media_type : string).

(** What the provider does with a request; the [nat] is the number of
    requests the shared client has sent before this one.  [PostResponse]
    carries the status code and what [response.json()] gives ([None]: the
    body does not parse and [json()] raises). *)
Inductive PostResult : Type :=
| PostRaises (msg : string)
| PostResponse (status_code : Z) (json : option PyValue).

(** What a streamed request gives when it is read to the end: the
    connection cannot be opened, or the chunks arrive and the stream ends, or
    some chunks arrive and then reading raises. *)
Inductive StreamResult : Type :=
| StreamRaises (msg : string)
| StreamChunks (status_code : Z) (chunks : list string)
| StreamBreaks (status_code : Z) (chunks : list string) (msg : string).

Record Client : Type := {
  post : nat -> Outbound -> PostResult;
  stream : nat -> Outbound -> StreamResult
}.

Inductive LogLine : Type :=
| LogProvider (name : string)                  (* print("provider: ", name) *)
| LogMatching (providers : list Provider.t)     (* print("matching_providers", ...) *)
| LogError (name : string) (e : Exn).           (* print(f"Error with provider {name}: {e}") *)

(** One evaluation of [await process_request(request, provider)] inside the
    loop of [try_all_providers]: the index used in [providers[...]], the
    value of the cursor when the call starts, the provider, the outcome. *)
Record Attempt : Type := {
  at_index : Z;
  at_cursor : Z;
  at_provider : Provider.t;
  at_result : Result Response
}.

(** [last_provider_index] is the handler's attribute, [stdout] what was
    printed and [sent] what was sent through [app.state.client], oldest
    first.  [attempts] is a history variable: the program never reads it. *)
Record State : Type := {
  last_provider_index : Z;
  stdout : list LogLine;
  sent : list Outbound;
  attempts : list Attempt
}.

Definition M (A : Type) : Type := State -> Result A * State.

Definition ret {A : Type} (a : A) : M A := fun s => (Ok a, s).

Definition raise {A : Type} (e : Exn) : M A := fun s => (Raise e, s).

Definition bind {A B : Type} (m : M A) (k : A -> M B) : M B :=
  fun s =>
    match m s with
    | (Ok a, s') => k a s'
    | (Raise e, s') => (Raise e, s')
    end.

(** [try: body  except Exception as e: handler(e)] *)
Definition try_except {A : Type} (body : M A) (handler : Exn -> M A) : M A :=
  fun s =>
    match body s with
    | (Ok a, s') => (Ok a, s')
    | (Raise e, s') => handler e s'
    end.

Declare Scope py_scope.
Delimit Scope py_scope with py.
Notation "x <- m ;; k" := (bind m (fun x => k))
  (at level 100, m at next level, right associativity) : py_scope.
Notation "m ;;; k" := (bind m (fun _ => k))
  (at level 100, right associativity) : py_scope.

Definition print (l : LogLine) : M unit :=
  fun s =>
    (Ok tt, {| last_provider_index := last_provider_index s;
               stdout := (stdout s ++ [l])%list;
               sent := sent s;
               attempts := attempts s |}).

Definition get_last_provider_index : M Z :=
  fun s => (Ok (last_provider_index s), s).

Definition set_last_provider_index (i : Z) : M unit :=
  fun s =>
    (Ok tt, {| last_provider_index := i;
               stdout := stdout s;
               sent := sent s;
               attempts := attempts s |}).

Definition record_sent (call : Outbound) (s : State) : State :=
  {| last_provider_index := last_provider_index s;
     stdout := stdout s;
     sent := (sent s ++ [call])%list;
     attempts := attempts s |}.

Definition record_attempt (a : Attempt) (s : State) : State :=
  {| last_provider_index := last_provider_index s;
     stdout := stdout s;
     sent := sent s;
     attempts := (attempts s ++ [a])%list |}.

(** Runs [m] and notes its outcome in the history. *)
Definition attempt (idx : Z) (provider : Provider.t) (m : M Response) : M Response :=
  fun s =>
    match m s with
    | (r, s') =>
        (r, record_attempt {| at_index := idx;
                              at_cursor := last_provider_index s;
                              at_provider := provider;
                              at_result := r |} s')
    end.

(** [l[i]], raising IndexError. *)
Definition getitem {A : Type} (l : list A) (i : Z) : M A :=
  match py_getitem l i with
  | Some a => ret a
  | None => raise IndexError
  end.

(** [url], [headers] and [payload] as [process_request] builds them. *)
Definition outbound_call (request : RequestModel.t) (provider : Provider.t) : Outbound :=
  {| out_url := Provider.base_url provider;
     out_headers := request_headers provider;
     out_payload := request_payload request provider |}.

(** ** The provider client and [process_request] *)

Section Gateway.

(** [app.state.client], the registry [config] and [os.environ]. *)
Variable client : Client.
Variable config : list Provider.t.
Variable environ : gmap string string.

Open Scope py_scope.

(** [response = await client.post(...); return response.json()]: the status
    code is not looked at. *)
Definition fetch_response (call : Outbound) : M PyValue :=
  fun s =>
    let s' := record_sent call s in
    match post client (length (sent s)) call with
    | PostRaises msg => (Raise (TransportError msg), s')
    | PostResponse _ (Some v) => (Ok v, s')
    | PostResponse _ None => (Raise JSONDecodeError, s')
    end.

(** The body of the generator, run to its end by whoever iterates it: the
    chunks it yields, one by one and in order, and how it ends, normally or
    by raising (before the first chunk when the connection fails, after the
    chunks already yielded when reading fails). *)
Definition fetch_response_stream (call : Outbound)
    : State -> (list string * Result unit) * State :=
  fun s =>
    let s' := record_sent call s in
    match stream client (length (sent s)) call with
    | StreamRaises msg => (([], Raise (TransportError msg)), s')
    | StreamChunks _ chunks => ((chunks, Ok tt), s')
    | StreamBreaks _ chunks msg => ((chunks, Raise (TransportError msg)), s')
    end.

(** [async for chunk in gen]: what the server does with the content of a
    [StreamingResponse] after the endpoint has returned it. *)
Definition iterate (gen : AsyncGen) : State -> (list string * Result unit) * State :=
  match gen with
  | FetchResponseStream call => fetch_response_stream call
  end.

Definition process_request (request : RequestModel.t) (provider : Provider.t)
    : M Response :=
  print (LogProvider (Provider.provider provider)) ;;;
  let call := outbound_call request provider in
  match RequestModel.stream request with
  | Some true => ret (StreamingResponse (FetchResponseStream call) "text/event-stream")
  | _ => v <- fetch_response call ;; ret (JSONBody v)
  end.

(** ** [ModelRequestHandler] *)

(** [__init__]: the cursor starts at -1. *)
Definition ModelRequestHandler_init : State :=
  {| last_provider_index := -1; stdout := []; sent := []; attempts := [] |}.

(** [x in l] on a list of strings. *)
Definition py_in (x : string) (l : list string) : bool :=
  existsb (String.eqb x) l.

(** [[provider for provider in config if model_name in provider['model']]] *)
Fixpoint matching (providers : list Provider.t) (model_name : string)
    : list Provider.t :=
  match providers with
  | [] => []
  | provider :: rest =>
      if py_in model_name (Provider.model provider)
      then provider :: matching rest model_name
      else matching rest model_name
  end.

Definition get_matching_providers (model_name : string) : list Provider.t :=
  matching config model_name.

(** The body of [for i in range(num_providers)], over the values of [i]
    still to come, followed by the [raise] after the loop.  Python's [%] is
    the floor modulo, as [Z.modulo]; [num_providers] is positive whenever
    the body runs. *)
Fixpoint try_loop (request : RequestModel.t) (providers : list Provider.t)
    (use_round_robin : bool) (num_providers start_index : Z) (range : list Z)
    : M Response :=
  match range with
  | [] => raise (HTTPException 500 "All providers failed")
  | i :: rest =>
      set_last_provider_index
        (if use_round_robin then (start_index + i) `mod` num_providers else i) ;;;
      idx <- get_last_provider_index ;;
      provider <- getitem providers idx ;;
      try_except
        (attempt idx provider (process_request request provider))
        (fun e =>
           print (LogError (Provider.provider provider) e) ;;;
           try_loop request providers use_round_robin num_providers start_index rest)
  end.

Definition try_all_providers (request : RequestModel.t) (providers : list Provider.t)
    (use_round_robin : bool) : M Response :=
  let num_providers := Z.of_nat (length providers) in
  start_index <- (if use_round_robin then get_last_provider_index else ret 0) ;;
  try_loop request providers use_round_robin num_providers start_index
    (seqZ 0 num_providers).

(** [os.environ.get('USE_ROUND_ROBIN', 'false').lower() == 'true'] *)
Definition use_round_robin_enabled : bool :=
  String.eqb (str_lower (default "false" (environ !! "USE_ROUND_ROBIN"))) "true".

Definition request_model (request : RequestModel.t) (token : string) : M Response :=
  let model_name := RequestModel.model request in
  let matching_providers := get_matching_providers model_name in
  print (LogMatching matching_providers) ;;;
  match matching_providers with
  | [] => raise (HTTPException 404 "No matching model found")
  | _ :: _ => try_all_providers request matching_providers use_round_robin_enabled
  end.

End Gateway.

(** ** Content flattening as the specification words it *)

Definition is_text_part (part : ContentItem.t) : bool :=
  String.eqb (ContentItem.type part) "text".

(** The given texts in order, one space between neighbours. *)
Fixpoint spaced (texts : list string) : string :=
  match texts with
  | [] => ""
  | t :: rest =>
      match rest with
      | [] => t
      | _ :: _ => t +:+ " " +:+ spaced rest
      end
  end.

(** The text fields of exactly the parts whose type is "text". *)
Definition spec_flatten (parts : list ContentItem.t) : string :=
  spaced (map ContentItem.text (List.filter is_text_part parts)).

(** The outbound message for one inbound message, with the content
    flattened the specification's way. *)
Definition spec_message (msg : Message.t) : PyValue :=
  PyDict [("role", PyStr (Message.role msg));
          ("content",
           PyStr match Message.content msg with
                 | ContentStr s => s
                 | ContentList parts => spec_flatten parts
                 end)].

(** ** The traversal order and the history of one call *)

(** The index that iteration [i] of the loop computes. *)
Definition traversal_index (use_round_robin : bool) (offset n i : Z) : Z :=
  if use_round_robin then (offset + i) `mod` n else i.

(** The computed order over [n] providers: for [i] in [0..n-1], [i] itself
    (sequential) or [(offset + i) mod n] (round-robin). *)
Definition traversal_order (use_round_robin : bool) (offset n : Z) : list Z :=
  traversal_index use_round_robin offset n <$> seqZ 0 n.

(** The attempts made, and the lines printed, between a state and a later
    one. *)
Definition attempts_since (s s' : State) : list Attempt :=
  drop (length (attempts s)) (attempts s').

Definition stdout_since (s s' : State) : list LogLine :=
  drop (length (stdout s)) (stdout s').

Definition failed (a : Attempt) : Prop := is_raise (at_result a) = true.

(** What one attempt prints: the provider's name when [process_request]
    starts and, when it raised, the name again with the error. *)
Definition attempt_log (a : Attempt) : list LogLine :=
  LogProvider (Provider.provider (at_provider a))
  :: match at_result a with
     | Ok _ => []
     | Raise e => [LogError (Provider.provider (at_provider a)) e]
     end.

(** What a run of the loop over the iterations [range], started in [s] and
    ending with [out], leaves behind, in terms of the attempts [tr] it made:
    they extend the history and are the only source of printed lines; their
    indices are the first [length tr] computed ones; each was made with the
    cursor at its index, on the provider at that index; the cursor stays
    at the last of them; and either all failed, the range is used up and
    the loop raises the 500, or the last one succeeded, the ones before it
    failed, and its response is returned. *)
Definition loop_post (providers : list Provider.t) (index : Z -> Z) (range : list Z)
    (s : State) (out : Result Response * State) (tr : list Attempt) : Prop :=
  attempts (snd out) = (attempts s ++ tr)%list
  /\ stdout (snd out) = (stdout s ++ concat (attempt_log <$> tr))%list
  /\ at_index <$> tr = take (length tr) (index <$> range)
  /\ Forall (fun a => at_cursor a = at_index a
                      /\ providers !! Z.to_nat (at_index a) = Some (at_provider a)) tr
  /\ last_provider_index (snd out)
     = default (last_provider_index s) (at_index <$> last tr)
  /\ ((fst out = Raise (HTTPException 500 "All providers failed")
       /\ length tr = length range /\ Forall failed tr)
      \/ (exists tr0 a r,
            tr = (tr0 ++ [a])%list /\ Forall failed tr0
            /\ at_result a = Ok r /\ fst out = Ok r)).

(** ** A run of the handler, and a small registry to evaluate on *)

(** One inbound call as the handler sees it: the client and environment at
    that moment, the request and the token. *)
Record Incoming : Type := {
  in_client : Client;
  in_environ : gmap string string;
  in_request : RequestModel.t;
  in_token : string
}.

Definition handle (config : list Provider.t) (c : Incoming) (s : State) : State :=
  snd (request_model (in_client c) config (in_environ c) (in_request c) (in_token c) s).

(** The handler's state after the given calls, served one after the other
    from a fresh handler. *)
Definition serve (config : list Provider.t) (calls : list Incoming) : State :=
  fold_left (fun s c => handle config c s) calls ModelRequestHandler_init.

Module Scenario.

Definition openai : Provider.t :=
  Provider.Build "openai" "https://one.example/v1/chat/completions" "K1" ["gpt-x"].

Definition anthropic : Provider.t :=
  Provider.Build "anthropic" "https://two.example/v1/messages" "K2" ["gpt-x"].

Definition registry : list Provider.t := [openai; anthropic].

Definition hello : list Message.t := [Message.Build "user" (ContentStr "hello")].

(** A body with only the required keys. *)
Definition body_plain : RequestModel.body :=
  RequestModel.Body "gpt-x" hello RequestModel.omitted RequestModel.omitted
    RequestModel.omitted RequestModel.omitted.

(** A body that asks for log probabilities. *)
Definition body_logprobs : RequestModel.body :=
  RequestModel.Body "gpt-x" hello (RequestModel.given (Some true))
    (RequestModel.given (Some 5)) RequestModel.omitted RequestModel.omitted.

(** A body that asks for a streamed answer. *)
Definition body_stream : RequestModel.body :=
  RequestModel.Body "gpt-x" hello RequestModel.omitted RequestModel.omitted
    (RequestModel.given (Some true)) RequestModel.omitted.

(** A body for a model no provider lists. *)
Definition body_unknown : RequestModel.body :=
  RequestModel.Body "no-such-model" hello RequestModel.omitted RequestModel.omitted
    RequestModel.omitted RequestModel.omitted.

Definition answer : PyValue := PyDict [("id", PyStr "r1")].

Definition overloaded : PyValue := PyDict [("error", PyStr "overloaded")].

(** Every provider is unreachable. *)
Definition client_down : Client :=
  {| post := fun _ _ => PostRaises "connection refused";
     stream := fun _ _ => StreamRaises "connection refused" |}.

(** The first provider is unreachable, any other answers. *)
Definition client_first_down : Client :=
  {| post := fun _ call =>
               if String.eqb (out_url call) (Provider.base_url openai)
               then PostRaises "connection refused"
               else PostResponse 200 (Some answer);
     stream := fun _ _ => StreamChunks 200 ["data: [DONE]"] |}.

(** The first provider answers 500 with a JSON error body, any other
    answers 200. *)
Definition client_first_overloaded : Client :=
  {| post := fun _ call =>
               if String.eqb (out_url call) (Provider.base_url openai)
               then PostResponse 500 (Some overloaded)
               else PostResponse 200 (Some answer);
     stream := fun _ _ => StreamChunks 200 ["data: [DONE]"] |}.

Definition round_robin_on : gmap string string := {["USE_ROUND_ROBIN" := "true"]}.

(** Every provider answers 500 with a JSON error body. *)
Definition client_all_overloaded : Client :=
  {| post := fun _ _ => PostResponse 500 (Some overloaded);
     stream := fun _ _ => StreamRaises "connection refused" |}.

End Scenario.

(** ** A failed provider call as the specification words it *)

(** The specification counts as a failure of a provider call a transport
    error, an answer with an error status (4xx, 5xx), and a body that cannot
    be parsed. *)
Definition spec_call_failed (answer : PostResult) : bool :=
  match answer with
  | PostRaises _ => true
  | PostResponse status_code None => true
  | PostResponse status_code (Some _) => bool_decide (400 <= status_code)
  end.

(** ** Authentication, the endpoint and the configuration loader *)

(** What the [HTTPBearer] dependency hands to [verify_api_key]. *)
Record HTTPAuthorizationCredentials : Type := {
  scheme : string;
  credentials : string
}.

(** The key table of the source, [api_keys_db]. *)
Definition api_keys_db : gmap string string :=
  {[ "sk-KjjI60Yf0JFcsvgRmXqFwgGmWUd9GZnmi3KlvowmRWpWpQRo" := "user1" ]}.

(** [verify_api_key], over the key table it consults. *)
Definition verify_api_key (keys : gmap string string)
    (c : HTTPAuthorizationCredentials) : M string :=
  let token := credentials c in
  match keys !! token with
  | None => raise (HTTPException 403 "Invalid or missing API Key")
  | Some _ => ret token
  end.

(** The endpoint [POST /v1/chat/completions]: the dependency
    [verify_api_key] is resolved first, and the body runs only when it
    returned. *)
Module App.
Definition request_model (keys : gmap string string) (client : Client)
    (config : list Provider.t) (environ : gmap string string)
    (request : RequestModel.t) (c : HTTPAuthorizationCredentials) : M Response :=
  (token <- verify_api_key keys c ;;
   request_model client config environ request token)%py.
End App.

(** What [open('api.yaml', 'r')] followed by reading gives, and what
    [yaml.safe_load] makes of the text.  The loaded document is taken to be
    a list of registry entries, the only shape the handler can use. *)
Inductive OpenResult : Type :=
| FileNotFoundError
| FileText (text : string).

Inductive YamlResult : Type :=
| YAMLError
| YamlDocument (doc : list Provider.t).

(** The two messages [load_config] can print. *)
Inductive ConfigMessage : Type :=
| ConfigFileNotFound
| ConfigFileMalformed.

(** [load_config]: the configuration and what was printed. *)
Definition load_config (opened : OpenResult) (safe_load : string -> YamlResult)
    : list Provider.t * list ConfigMessage :=
  match opened with
  | FileText text =>
      match safe_load text with
      | YamlDocument doc => (doc, [])
      | YAMLError => ([], [ConfigFileMalformed])
      end
  | FileNotFoundError => ([], [ConfigFileNotFound])
  end.

(** ** The outcome of one attempt in terms of the client *)

(** What [process_request] evaluates to when the client has sent [clock]
    requests before. *)
Definition attempt_result (client : Client) (request : RequestModel.t)
    (provider : Provider.t) (clock : nat) : Result Response :=
  match RequestModel.stream request with
  | Some true =>
      Ok (StreamingResponse (FetchResponseStream (outbound_call request provider))
            "text/event-stream")
  | _ =>
      match post client clock (outbound_call request provider) with
      | PostRaises msg => Raise (TransportError msg)
      | PostResponse _ (Some v) => Ok (JSONBody v)
      | PostResponse _ None => Raise JSONDecodeError
      end
  end.

(** The requests that the given attempts send while the handler runs: one
    POST each for a buffered request, none for a streaming one. *)
Definition calls_sent (request : RequestModel.t) (tr : list Attempt) : list Outbound :=
  match RequestModel.stream request with
  | Some true => []
  | _ => (fun a => outbound_call request (at_provider a)) <$> tr
  end.

(** A client whose every POST is answered with a body that decodes. *)
Definition healthy (client : Client) : Prop :=
  forall clock call, exists code v, post client clock call = PostResponse code (Some v).

(** Two answers that differ at most in the status code. *)
Definition same_but_status (a b : PostResult) : Prop :=
  match a, b with
  | PostRaises msg, PostRaises msg' => msg = msg'
  | PostResponse _ body, PostResponse _ body' => body = body'
  | _, _ => False
  end.

(** The state with the cursor moved to [i]. *)
Definition with_cursor (i : Z) (s : State) : State :=
  snd (set_last_provider_index i s).

(** ** Overlapping requests *)

(** The handler's coroutines give up control at one place only, the
    [await client.post(...)] of [fetch_response]; everything between two such
    points runs in one piece.  A sweep that waits there holds the arguments
    and locals of [try_all_providers]: the values of [i] still to come, the
    index and provider of the attempt under way, and the position of its
    request among the requests sent. *)
Record Suspended : Type := {
  sw_request : RequestModel.t;
  sw_providers : list Provider.t;
  sw_use_round_robin : bool;
  sw_start_index : Z;
  sw_rest : list Z;
  sw_index : Z;
  sw_provider : Provider.t;
  sw_clock : nat
}.

Inductive Progress : Type :=
| Finished (r : Result Response)
| Awaiting (k : Suspended).

(** The loop of [try_all_providers] from the iterations [range] on, up to the
    point where it returns, raises or waits for the answer to its POST. *)
Definition sweep_from (request : RequestModel.t) (providers : list Provider.t)
    (use_round_robin : bool) (start_index : Z) (range : list Z) (s : State)
    : Progress * State :=
  let num_providers := Z.of_nat (length providers) in
  match range with
  | [] => (Finished (Raise (HTTPException 500 "All providers failed")), s)
  | i :: rest =>
      let s1 :=
        with_cursor
          (if use_round_robin then (start_index + i) `mod` num_providers else i) s in
      let idx := last_provider_index s1 in
      match py_getitem providers idx with
      | None => (Finished (Raise IndexError), s1)
      | Some provider =>
          let s2 := snd (print (LogProvider (Provider.provider provider)) s1) in
          let call := outbound_call request provider in
          match RequestModel.stream request with
          | Some true =>
              let r := Ok (StreamingResponse (FetchResponseStream call)
                             "text/event-stream") in
              (Finished r,
               record_attempt {| at_index := idx; at_cursor := idx;
                                 at_provider := provider; at_result := r |} s2)
          | _ =>
              (Awaiting {| sw_request := request;
                           sw_providers := providers;
                           sw_use_round_robin := use_round_robin;
                           sw_start_index := start_index;
                           sw_rest := rest;
                           sw_index := idx;
                           sw_provider := provider;
                           sw_clock := length (sent s2) |},
               record_sent call s2)
          end
      end
  end.

(** The answer to the POST has arrived: [fetch_response] returns or raises,
    and the loop goes on from there, on the state as it is by then. *)
Definition resume (client : Client) (k : Suspended) (s : State) : Progress * State :=
  let provider := sw_provider k in
  let r :=
    match post client (sw_clock k) (outbound_call (sw_request k) provider) with
    | PostRaises msg => Raise (TransportError msg)
    | PostResponse _ (Some v) => Ok (JSONBody v)
    | PostResponse _ None => Raise JSONDecodeError
    end in
  let s1 := record_attempt {| at_index := sw_index k; at_cursor := sw_index k;
                              at_provider := provider; at_result := r |} s in
  match r with
  | Ok response => (Finished (Ok response), s1)
  | Raise e =>
      sweep_from (sw_request k) (sw_providers k) (sw_use_round_robin k)
        (sw_start_index k) (sw_rest k)
        (snd (print (LogError (Provider.provider provider) e) s1))
  end.

(** [ModelRequestHandler.request_model] up to its first wait. *)
Definition arrive (config : list Provider.t) (environ : gmap string string)
    (request : RequestModel.t) (s : State) : Progress * State :=
  let matching_providers := get_matching_providers config (RequestModel.model request) in
  let s0 := snd (print (LogMatching matching_providers) s) in
  match matching_providers with
  | [] => (Finished (Raise (HTTPException 404 "No matching model found")), s0)
  | _ :: _ =>
      let use_round_robin := use_round_robin_enabled environ in
      let start_index := if use_round_robin then last_provider_index s0 else 0 in
      sweep_from request matching_providers use_round_robin start_index
        (seqZ 0 (Z.of_nat (length matching_providers))) s0
  end.

(** A task run with nothing in between: every wait is followed at once by
    its answer. *)
Fixpoint finish (client : Client) (fuel : nat) (p : Progress * State)
    : option (Result Response * State) :=
  match p with
  | (Finished r, s) => Some (r, s)
  | (Awaiting k, s) =>
      match fuel with
      | O => None
      | S fuel' => finish client fuel' (resume client k s)
      end
  end.

(** The process: the handler's state, shared by all requests, and one task
    per request that has come in.  An event is a new request or the arrival
    of the answer that a waiting task waits for. *)
Record Server : Type := {
  shared : State;
  tasks : list Progress
}.

Inductive Event : Type :=
| Arrive (environ : gmap string string) (request : RequestModel.t)
| Wake (task : nat).

Definition step (client : Client) (config : list Provider.t) (ev : Event)
    (srv : Server) : Server :=
  match ev with
  | Arrive environ request =>
      let out := arrive config environ request (shared srv) in
      {| shared := snd out; tasks := (tasks srv ++ [fst out])%list |}
  | Wake t =>
      match tasks srv !! t with
      | Some (Awaiting k) =>
          let out := resume client k (shared srv) in
          {| shared := snd out; tasks := <[t := fst out]> (tasks srv) |}
      | _ => srv
      end
  end.

Definition run (client : Client) (config : list Provider.t) (evs : list Event)
    : Server :=
  fold_left (fun srv ev => step client config ev srv) evs
    {| shared := ModelRequestHandler_init; tasks := [] |}.

(** What holds of a waiting sweep and of a recorded attempt in every
    schedule: the attempt is on the matching list of its request, at an
    index of that list, made with the cursor at that index. *)
Definition sweep_ok (config : list Provider.t) (k : Suspended) : Prop :=
  sw_providers k = get_matching_providers config (RequestModel.model (sw_request k))
  /\ 0 <= sw_index k <= Z.of_nat (length (sw_providers k)) - 1
  /\ sw_providers k !! Z.to_nat (sw_index k) = Some (sw_provider k)
  /\ Forall (fun i => 0 <= i < Z.of_nat (length (sw_providers k))) (sw_rest k).

Definition attempt_ok (config : list Provider.t) (a : Attempt) : Prop :=
  at_cursor a = at_index a
  /\ exists request,
       let providers := get_matching_providers config (RequestModel.model request) in
       0 <= at_index a <= Z.of_nat (length providers) - 1
       /\ providers !! Z.to_nat (at_index a) = Some (at_provider a).

Definition progress_ok (config : list Provider.t) (p : Progress) : Prop :=
  match p with
  | Finished _ => True
  | Awaiting k => sweep_ok config k
  end.

Definition server_ok (config : list Provider.t) (srv : Server) : Prop :=
  -1 <= last_provider_index (shared srv)
  /\ Forall (attempt_ok config) (attempts (shared srv))
  /\ Forall (progress_ok config) (tasks srv).

(** Three providers, of which only the first lists the model "small". *)
Module Overlap.

Definition first : Provider.t :=
  Provider.Build "first" "https://one.example/v1" "K1" ["small"; "big"].

Definition second : Provider.t :=
  Provider.Build "second" "https://two.example/v1" "K2" ["big"].

Definition third : Provider.t :=
  Provider.Build "third" "https://three.example/v1" "K3" ["big"].

Definition registry : list Provider.t := [first; second; third].

Definition small : RequestModel.t :=
  RequestModel.init
    (RequestModel.Body "small" Scenario.hello RequestModel.omitted RequestModel.omitted
       RequestModel.omitted RequestModel.omitted).

Definition big : RequestModel.t :=
  RequestModel.init
    (RequestModel.Body "big" Scenario.hello RequestModel.omitted RequestModel.omitted
       RequestModel.omitted RequestModel.omitted).

(** The first request sent is answered, every later one finds the provider
    unreachable. *)
Definition client : Client :=
  {| post := fun clock _ =>
               match clock with
               | O => PostResponse 200 (Some Scenario.answer)
               | S _ => PostRaises "connection refused"
               end;
     stream := fun _ _ => StreamRaises "connection refused" |}.

(** The request for "small" comes in and waits for its answer; the request
    for "big" comes in, fails on the first and on the second provider and
    waits on the third; then the answer for "small" arrives. *)
Definition schedule : list Event :=
  [Arrive ∅ small; Arrive ∅ big; Wake 1; Wake 1; Wake 0].

End Overlap.

(** * Properties of the translator *)

Lemma append_assoc (a b c : string) : (a +:+ b) +:+ c = a +:+ (b +:+ c).
Proof.
  induction a as [|ch a IH]; [reflexivity |].
  change (String ch ((a +:+ b) +:+ c) = String ch (a +:+ b +:+ c)).
  by rewrite IH.
Qed.

Lemma append_empty_r (a : string) : a +:+ "" = a.
Proof.
  induction a as [|ch a IH]; [reflexivity |].
  change (String ch (a +:+ "") = String ch a). by rewrite IH.
Qed.

Lemma str_join_fold (sep : string) (rest : list string) (first : string) :
  fold_left (fun acc s => acc +:+ sep +:+ s) rest first
  = first +:+ fold_right (fun s tail => sep +:+ s +:+ tail) "" rest.
Proof.
  revert first. induction rest as [|s rest IH]; intros first; simpl.
  - by rewrite append_empty_r.
  - rewrite IH. by rewrite !append_assoc.
Qed.

Lemma spaced_fold (t : string) (rest : list string) :
  spaced (t :: rest) = t +:+ fold_right (fun s tail => " " +:+ s +:+ tail) "" rest.
Proof.
  revert t. induction rest as [|s rest IH]; intros t.
  - simpl. by rewrite append_empty_r.
  - change (spaced (t :: s :: rest)) with (t +:+ " " +:+ spaced (s :: rest)).
    by rewrite IH.
Qed.

Lemma str_join_spaced (texts : list string) : str_join " " texts = spaced texts.
Proof.
  destruct texts as [|t rest]; [reflexivity |].
  unfold str_join. by rewrite str_join_fold, spaced_fold.
Qed.

Lemma text_items_filter (items : list ContentItem.t) :
  text_items items = map ContentItem.text (List.filter is_text_part items).
Proof.
  induction items as [|item items IH]; simpl; [reflexivity |].
  unfold is_text_part at 1. destruct (String.eqb _ _); simpl; by rewrite IH.
Qed.

Lemma flatten_content_spec (parts : list ContentItem.t) :
  flatten_content (ContentList parts) = spec_flatten parts.
Proof. unfold spec_flatten. simpl. by rewrite str_join_spaced, text_items_filter. Qed.

Lemma convert_messages_acc (msgs : list Message.t) (acc : list PyValue) :
  fold_left
    (fun (messages : list PyValue) msg =>
       let content := flatten_content (Message.content msg) in
       (messages ++ [PyDict [("role", PyStr (Message.role msg));
                             ("content", PyStr content)]])%list)
    msgs acc
  = (acc ++ map spec_message msgs)%list.
Proof.
  revert acc. induction msgs as [|msg msgs IH]; intros acc; simpl.
  - by rewrite app_nil_r.
  - rewrite IH, <- app_assoc. simpl. do 3 f_equal.
    unfold spec_message. destruct (Message.content msg); simpl; [reflexivity |].
    change (str_join " " (text_items items)) with (flatten_content (ContentList items)).
    by rewrite flatten_content_spec.
Qed.

Lemma convert_messages_map (msgs : list Message.t) :
  convert_messages msgs = map spec_message msgs.
Proof. unfold convert_messages. by rewrite convert_messages_acc. Qed.

Lemma set_if_not_none_lookup {A : Type} (k : string) (inj : A -> PyValue)
    (o : option A) (d : gmap string PyValue) :
  set_if_not_none k inj o d !! k = match o with Some v => Some (inj v) | None => d !! k end.
Proof. destruct o; simpl; [apply lookup_insert_eq | reflexivity]. Qed.

Lemma set_if_not_none_lookup_ne {A : Type} (k k' : string) (inj : A -> PyValue)
    (o : option A) (d : gmap string PyValue) :
  k ≠ k' -> set_if_not_none k inj o d !! k' = d !! k'.
Proof. intros Hne. destruct o; simpl; [by rewrite lookup_insert_ne | reflexivity]. Qed.

(** The keys every payload starts with, whatever the provider. *)
Lemma request_payload_messages (request : RequestModel.t) (provider : Provider.t) :
  request_payload request provider !! "messages"
  = Some (PyList (map spec_message (RequestModel.messages request))).
Proof.
  unfold request_payload. rewrite convert_messages_map.
  destruct (String.eqb _ _).
  - rewrite lookup_insert_ne by done.
    rewrite !set_if_not_none_lookup_ne by done. by rewrite lookup_insert_eq.
  - rewrite !set_if_not_none_lookup_ne by done. by rewrite lookup_insert_eq.
Qed.

(** C7: a list content is flattened to the text fields of exactly its parts
    of type "text", in their order, with a single space between them; the
    parts text "a", image "x", text "b" give "a b"; a plain string is passed
    through unchanged; and this is the content every outbound message of the
    payload carries. *)
Theorem C7_content_flattening :
  (forall parts, flatten_content (ContentList parts) = spec_flatten parts)
  /\ flatten_content
       (ContentList [ContentItem.Build "text" "a"; ContentItem.Build "image" "x";
                     ContentItem.Build "text" "b"]) = "a b"
  /\ (forall s, flatten_content (ContentStr s) = s)
  /\ (forall request provider,
        request_payload request provider !! "messages"
        = Some (PyList (map spec_message (RequestModel.messages request)))).
Proof.
  split; [exact flatten_content_spec |].
  split; [reflexivity |].
  split; [reflexivity | exact request_payload_messages].
Qed.

Lemma request_payload_anthropic (request : RequestModel.t) (provider : Provider.t) :
  Provider.provider provider = "anthropic" ->
  request_payload request provider
  = <["max_tokens" := PyInt 1000]>
      (set_if_not_none "include_usage" PyBool (RequestModel.include_usage request)
         (set_if_not_none "stream" PyBool (RequestModel.stream request)
            (<["messages" := PyList (convert_messages (RequestModel.messages request))]>
               (<["model" := PyStr (RequestModel.model request)]> ∅)))).
Proof. intros Hname. unfold request_payload. by rewrite Hname. Qed.

Lemma request_payload_other (request : RequestModel.t) (provider : Provider.t) :
  Provider.provider provider ≠ "anthropic" ->
  request_payload request provider
  = set_if_not_none "top_logprobs" PyInt (RequestModel.top_logprobs request)
      (set_if_not_none "logprobs" PyBool (RequestModel.logprobs request)
         (set_if_not_none "include_usage" PyBool (RequestModel.include_usage request)
            (set_if_not_none "stream" PyBool (RequestModel.stream request)
               (<["messages" := PyList (convert_messages (RequestModel.messages request))]>
                  (<["model" := PyStr (RequestModel.model request)]> ∅))))).
Proof.
  intros Hname. unfold request_payload.
  by destruct (String.eqb_spec (Provider.provider provider) "anthropic").
Qed.

(** The payload that every provider gets before the provider-specific keys
    are added has none of [max_tokens], [logprobs], [top_logprobs]. *)
Lemma base_payload_lookup (request : RequestModel.t) (k : string) :
  k ≠ "model" -> k ≠ "messages" -> k ≠ "stream" -> k ≠ "include_usage" ->
  set_if_not_none "include_usage" PyBool (RequestModel.include_usage request)
    (set_if_not_none "stream" PyBool (RequestModel.stream request)
       (<["messages" := PyList (convert_messages (RequestModel.messages request))]>
          (<["model" := PyStr (RequestModel.model request)]> ∅))) !! k = None.
Proof.
  intros H1 H2 H3 H4.
  rewrite !set_if_not_none_lookup_ne by done.
  by rewrite !lookup_insert_ne by done.
Qed.

(** C6: for the provider named "anthropic" the payload has
    [max_tokens = 1000] and neither [logprobs] nor [top_logprobs], whatever
    the request carries in those two fields. *)
Theorem C6_anthropic_payload (request : RequestModel.t) (provider : Provider.t) :
  Provider.provider provider = "anthropic" ->
  request_payload request provider !! "max_tokens" = Some (PyInt 1000)
  /\ request_payload request provider !! "logprobs" = None
  /\ request_payload request provider !! "top_logprobs" = None.
Proof.
  intros Hname. rewrite request_payload_anthropic by done.
  split; [apply lookup_insert_eq |].
  split; (rewrite lookup_insert_ne by done; by apply base_payload_lookup).
Qed.

(** C5, as the code has it: for a provider not named "anthropic" the payload
    has [logprobs] exactly when the request's [logprobs] is not [None], and
    [top_logprobs] likewise, each with the request's value, and it never has
    [max_tokens].  In terms of the inbound body: a body that leaves
    [logprobs] out gets the class default [False], which is sent; a body
    that gives [null] sends nothing; [top_logprobs] is sent exactly when it
    is given with a value. *)
Theorem C5_other_payload (provider : Provider.t) :
  Provider.provider provider ≠ "anthropic" ->
  (forall request : RequestModel.t,
     request_payload request provider !! "logprobs"
     = PyBool <$> RequestModel.logprobs request
     /\ request_payload request provider !! "top_logprobs"
        = PyInt <$> RequestModel.top_logprobs request
     /\ request_payload request provider !! "max_tokens" = None)
  /\ (forall body : RequestModel.body,
        request_payload (RequestModel.init body) provider !! "logprobs"
        = match RequestModel.body_logprobs body with
          | RequestModel.omitted => Some (PyBool false)
          | RequestModel.given v => PyBool <$> v
          end
        /\ request_payload (RequestModel.init body) provider !! "top_logprobs"
           = match RequestModel.body_top_logprobs body with
             | RequestModel.omitted => None
             | RequestModel.given v => PyInt <$> v
             end).
Proof.
  intros Hname.
  assert (Hreq : forall request : RequestModel.t,
     request_payload request provider !! "logprobs"
     = PyBool <$> RequestModel.logprobs request
     /\ request_payload request provider !! "top_logprobs"
        = PyInt <$> RequestModel.top_logprobs request
     /\ request_payload request provider !! "max_tokens" = None).
  { intros request. rewrite request_payload_other by done. repeat split.
    - rewrite set_if_not_none_lookup_ne by done. rewrite set_if_not_none_lookup.
      destruct (RequestModel.logprobs request); [reflexivity |].
      by apply base_payload_lookup.
    - rewrite set_if_not_none_lookup.
      destruct (RequestModel.top_logprobs request); [reflexivity |].
      rewrite set_if_not_none_lookup_ne by done. by apply base_payload_lookup.
    - rewrite (set_if_not_none_lookup_ne "top_logprobs") by done.
      rewrite (set_if_not_none_lookup_ne "logprobs") by done.
      by apply base_payload_lookup. }
  split; [exact Hreq |].
  intros body. destruct (Hreq (RequestModel.init body)) as (Hl & Ht & _).
  rewrite Hl, Ht. simpl.
  by destruct (RequestModel.body_logprobs body), (RequestModel.body_top_logprobs body).
Qed.

(** * Properties of the failover loop *)

Section ProcessRequest.

Variable client : Client.
Variable request : RequestModel.t.
Variable provider : Provider.t.

(** [process_request] prints the provider's name and leaves the cursor and
    the history alone. *)
Lemma process_request_frame (s : State) :
  let s' := snd (process_request client request provider s) in
  last_provider_index s' = last_provider_index s
  /\ attempts s' = attempts s
  /\ stdout s' = (stdout s ++ [LogProvider (Provider.provider provider)])%list.
Proof.
  unfold process_request, bind, print, ret, fetch_response. simpl.
  destruct (RequestModel.stream request) as [[|]|]; simpl; try done;
    destruct (post client _ _) as [msg|code [v|]]; simpl; done.
Qed.

(** A streaming request is answered with the response object at once:
    nothing is sent to the provider by [process_request]. *)
Lemma process_request_stream (s : State) :
  RequestModel.stream request = Some true ->
  fst (process_request client request provider s)
  = Ok (StreamingResponse (FetchResponseStream (outbound_call request provider)) "text/event-stream")
  /\ sent (snd (process_request client request provider s)) = sent s.
Proof.
  intros Hs. unfold process_request, bind, print, ret. simpl. by rewrite Hs.
Qed.

(** A buffered request sends one POST; it raises exactly when the client
    raises or the body does not decode, whatever the status code. *)
Lemma process_request_buffered (s : State) :
  RequestModel.stream request ≠ Some true ->
  fst (process_request client request provider s)
  = match post client (length (sent s)) (outbound_call request provider) with
    | PostRaises msg => Raise (TransportError msg)
    | PostResponse _ (Some v) => Ok (JSONBody v)
    | PostResponse _ None => Raise JSONDecodeError
    end
  /\ sent (snd (process_request client request provider s))
     = (sent s ++ [outbound_call request provider])%list.
Proof.
  intros Hs. unfold process_request, bind, print, ret, fetch_response. simpl.
  destruct (RequestModel.stream request) as [[|]|]; simpl; try done;
    destruct (post client _ _) as [msg|code [v|]]; simpl; done.
Qed.

End ProcessRequest.

Lemma py_getitem_in_range {A : Type} (l : list A) (i : Z) :
  0 <= i < Z.of_nat (length l) ->
  exists a, py_getitem l i = Some a /\ l !! Z.to_nat i = Some a.
Proof.
  intros Hi. unfold py_getitem. rewrite bool_decide_eq_true_2 by done.
  destruct (lookup_lt_is_Some_2 l (Z.to_nat i)) as [a Ha]; [lia |].
  exists a. by rewrite Ha.
Qed.

Section Sweep.

Variable client : Client.
Variable request : RequestModel.t.
Variable providers : list Provider.t.
Variable use_round_robin : bool.
Variable start_index : Z.

Let n : Z := Z.of_nat (length providers).
Let index : Z -> Z := traversal_index use_round_robin start_index n.
Let loop : list Z -> M Response :=
  try_loop client request providers use_round_robin n start_index.

Lemma try_loop_run (range : list Z) (s : State) :
  Forall (fun i => 0 <= index i < n) range ->
  exists tr, loop_post providers index range s (loop range s) tr.
Proof.
  revert s. induction range as [|i rest IH]; intros s Hrange.
  - exists []. unfold loop_post. simpl. rewrite !app_nil_r.
    repeat split; try done. left. by repeat split.
  - apply Forall_cons in Hrange as [Hi Hrest].
    destruct (py_getitem_in_range providers (index i) Hi) as (p & Hget & Hlook).
    unfold loop. simpl.
    unfold bind at 1, set_last_provider_index at 1. simpl.
    unfold bind at 1, get_last_provider_index at 1. simpl.
    fold (traversal_index use_round_robin start_index n i). fold index.
    unfold bind at 1, getitem. rewrite Hget. unfold ret at 1.
    unfold try_except, attempt. simpl.
    set (s1 := {| last_provider_index := index i; stdout := stdout s;
                  sent := sent s; attempts := attempts s |}).
    pose proof (process_request_frame client request p s1) as (Hc & Ha & Ho).
    destruct (process_request client request p s1) as [r s2] eqn:Hpr.
    simpl in Hc, Ha, Ho.
    set (a := {| at_index := index i; at_cursor := index i;
                 at_provider := p; at_result := r |}).
    destruct r as [resp | e].
    + exists [a]. unfold loop_post. simpl.
      repeat split.
      * by rewrite Ha.
      * by rewrite Ho.
      * constructor; [done | constructor].
      * done.
      * right. exists [], a, resp. by repeat split.
    + unfold bind at 1, print at 1. simpl.
      set (s4 := {| last_provider_index := last_provider_index s2;
                    stdout := (stdout s2 ++ [LogError (Provider.provider p) e])%list;
                    sent := sent s2;
                    attempts := (attempts s2 ++ [a])%list |}).
      destruct (IH s4 Hrest) as (tr & Hatt & Hout & Hidx & Hall & Hcur & Hres).
      fold loop. exists (a :: tr). unfold loop_post.
      repeat split.
      * rewrite Hatt. simpl. rewrite Ha. by rewrite <- app_assoc.
      * rewrite Hout. simpl. rewrite Ho. by rewrite <- !app_assoc.
      * rewrite !fmap_cons. change (length (a :: tr)) with (S (length tr)).
        rewrite firstn_cons. by rewrite Hidx.
      * constructor; [done | exact Hall].
      * rewrite Hcur. simpl. rewrite Hc.
        destruct tr as [|a' tr']; [done |]. rewrite last_cons_cons.
        destruct (last (a' :: tr')) eqn:Hl; [done | by apply last_None in Hl].
      * destruct Hres as [(Hf & Hlen & Hfail) | (tr0 & a0 & r0 & Htr & Hfail & Hok & Hf)].
        -- left. repeat split; [done | simpl; by rewrite Hlen |].
           constructor; [done | exact Hfail].
        -- right. exists (a :: tr0), a0, r0. rewrite Htr.
           repeat split; [| done | done]. constructor; [done | exact Hfail].
Qed.

End Sweep.

(** ** The computed order *)

Lemma traversal_index_range (use_round_robin : bool) (offset n i : Z) :
  0 <= i < n -> 0 <= traversal_index use_round_robin offset n i < n.
Proof.
  intros Hi. unfold traversal_index. destruct use_round_robin; [| done].
  apply Z.mod_pos_bound. lia.
Qed.

Lemma traversal_index_inj (offset n i j : Z) :
  0 <= i < n -> 0 <= j < n ->
  (offset + i) `mod` n = (offset + j) `mod` n -> i = j.
Proof.
  intros Hi Hj Heq.
  rewrite (Z.mod_eq (offset + i) n), (Z.mod_eq (offset + j) n) in Heq by lia.
  set (q := (offset + i) `div` n) in Heq. set (q' := (offset + j) `div` n) in Heq.
  destruct (Z.lt_trichotomy q q') as [Hlt | [Heqq | Hgt]]; [nia | | nia].
  rewrite Heqq in Heq. lia.
Qed.

Lemma traversal_order_length (use_round_robin : bool) (offset n : Z) :
  length (traversal_order use_round_robin offset n) = Z.to_nat n.
Proof. unfold traversal_order. by rewrite length_fmap, length_seqZ. Qed.

Lemma traversal_order_lookup (use_round_robin : bool) (offset n : Z) (k : nat) :
  Z.of_nat k < n ->
  traversal_order use_round_robin offset n !! k
  = Some (traversal_index use_round_robin offset n (Z.of_nat k)).
Proof.
  intros Hk. unfold traversal_order.
  by rewrite list_lookup_fmap, lookup_seqZ_lt.
Qed.

Lemma traversal_order_NoDup (use_round_robin : bool) (offset n : Z) :
  NoDup (traversal_order use_round_robin offset n).
Proof.
  unfold traversal_order. apply NoDup_fmap_2_strong; [| apply NoDup_seqZ].
  intros i j Hi%elem_of_seqZ Hj%elem_of_seqZ. unfold traversal_index.
  destruct use_round_robin; [| done].
  apply traversal_index_inj; lia.
Qed.

(** Every index of [0..n-1] occurs exactly once in the computed order. *)
Lemma traversal_order_perm (use_round_robin : bool) (offset n : Z) :
  traversal_order use_round_robin offset n ≡ₚ seqZ 0 n.
Proof.
  apply NoDup_Permutation; [apply traversal_order_NoDup | apply NoDup_seqZ |].
  intros x. unfold traversal_order. rewrite list_elem_of_fmap. split.
  - intros (i & -> & Hi%elem_of_seqZ). apply elem_of_seqZ.
    pose proof (traversal_index_range use_round_robin offset n i). lia.
  - intros Hx%elem_of_seqZ. unfold traversal_index.
    destruct use_round_robin; [| exists x; split; [done | apply elem_of_seqZ; lia]].
    exists ((x - offset) `mod` n). split.
    + rewrite Zplus_mod_idemp_r. replace (offset + (x - offset)) with x by lia.
      symmetry. apply Z.mod_small. lia.
    + apply elem_of_seqZ. pose proof (Z.mod_pos_bound (x - offset) n). lia.
Qed.

(** ** One call of [try_all_providers] and of [request_model] *)

Lemma loop_post_attempts_since (providers : list Provider.t) (index : Z -> Z)
    (range : list Z) (s : State) (out : Result Response * State) (tr : list Attempt) :
  loop_post providers index range s out tr -> attempts_since s (snd out) = tr.
Proof.
  intros (Hatt & _). unfold attempts_since. rewrite Hatt. apply drop_app_length.
Qed.

Lemma try_all_providers_run (client : Client) (request : RequestModel.t)
    (providers : list Provider.t) (use_round_robin : bool) (s : State) :
  let n := Z.of_nat (length providers) in
  let out := try_all_providers client request providers use_round_robin s in
  loop_post providers (traversal_index use_round_robin (last_provider_index s) n)
    (seqZ 0 n) s out (attempts_since s (snd out)).
Proof.
  intros n out.
  assert (Hrange : forall offset,
            Forall (fun i => 0 <= traversal_index use_round_robin offset n i < n)
              (seqZ 0 n)).
  { intros offset. apply Forall_seqZ. intros i Hi.
    apply traversal_index_range. lia. }
  assert (Hex : exists tr,
            loop_post providers
              (traversal_index use_round_robin (last_provider_index s) n)
              (seqZ 0 n) s out tr).
  { subst out. unfold try_all_providers, bind. destruct use_round_robin; simpl.
    - apply (try_loop_run client request providers true (last_provider_index s)).
      apply Hrange.
    - apply (try_loop_run client request providers false 0). apply (Hrange 0). }
  destruct Hex as (tr & Hpost).
  by rewrite (loop_post_attempts_since _ _ _ _ _ _ Hpost).
Qed.

Lemma matching_spec (providers : list Provider.t) (model_name : string) :
  matching providers model_name
  = List.filter (fun p => py_in model_name (Provider.model p)) providers.
Proof.
  induction providers as [|p rest IH]; simpl; [reflexivity |].
  destruct (py_in _ _); by rewrite IH.
Qed.

Lemma py_in_spec (x : string) (l : list string) : py_in x l = true <-> x ∈ l.
Proof.
  unfold py_in. rewrite existsb_exists, list_elem_of_In. split.
  - by intros (y & Hy & ->%String.eqb_eq).
  - intros Hx. exists x. split; [done | apply String.eqb_refl].
Qed.

Lemma matching_sublist (providers : list Provider.t) (model_name : string) :
  matching providers model_name `sublist_of` providers.
Proof.
  induction providers as [|p rest IH]; simpl; [constructor |].
  destruct (py_in _ _); by constructor.
Qed.

Lemma matching_elem_of (providers : list Provider.t) (model_name : string)
    (p : Provider.t) :
  p ∈ matching providers model_name <-> p ∈ providers /\ model_name ∈ Provider.model p.
Proof.
  rewrite matching_spec, (list_elem_of_In (List.filter _ _)), filter_In, py_in_spec.
  by rewrite (list_elem_of_In providers).
Qed.

Lemma matching_nil (providers : list Provider.t) (model_name : string) :
  matching providers model_name = []
  <-> forall p, p ∈ providers -> model_name ∉ Provider.model p.
Proof.
  split.
  - intros Hnil p Hp Hm.
    assert (Hin : p ∈ matching providers model_name) by by apply matching_elem_of.
    rewrite Hnil in Hin. by apply not_elem_of_nil in Hin.
  - intros Hall. destruct (matching providers model_name) as [|p rest] eqn:Hm; [done |].
    assert (Hin : p ∈ matching providers model_name) by (rewrite Hm; left).
    apply matching_elem_of in Hin as [Hp Hmod]. by destruct (Hall p Hp).
Qed.

Lemma request_model_unfold (client : Client) (config : list Provider.t)
    (environ : gmap string string) (request : RequestModel.t) (token : string)
    (s : State) :
  request_model client config environ request token s
  = let providers := get_matching_providers config (RequestModel.model request) in
    let s0 := snd (print (LogMatching providers) s) in
    match providers with
    | [] => (Raise (HTTPException 404 "No matching model found"), s0)
    | _ :: _ =>
        try_all_providers client request providers (use_round_robin_enabled environ) s0
    end.
Proof.
  unfold request_model, bind, print. simpl.
  by destruct (get_matching_providers config (RequestModel.model request)).
Qed.

Lemma request_model_run (client : Client) (config : list Provider.t)
    (environ : gmap string string) (request : RequestModel.t) (token : string)
    (s : State) :
  let providers := get_matching_providers config (RequestModel.model request) in
  let n := Z.of_nat (length providers) in
  let out := request_model client config environ request token s in
  providers ≠ [] ->
  loop_post providers
    (traversal_index (use_round_robin_enabled environ) (last_provider_index s) n)
    (seqZ 0 n) (snd (print (LogMatching providers) s)) out
    (attempts_since s (snd out)).
Proof.
  intros providers n out Hne. subst out. rewrite request_model_unfold.
  fold providers. cbv zeta.
  pose proof (try_all_providers_run client request providers
                (use_round_robin_enabled environ)
                (snd (print (LogMatching providers) s))) as Hrun.
  destruct providers as [|p rest]; [done |]. exact Hrun.
Qed.

(** * The claims about the failover coordinator *)

(** C1: when no provider of the registry lists the requested model,
    handling the request raises the 404 "No matching model found", whatever
    the registry holds; the matching set is the registry filtered, in
    registry order, by "the model list contains the requested model". *)
Theorem C1_no_match_is_not_found (client : Client) (config : list Provider.t)
    (environ : gmap string string) (request : RequestModel.t) (token : string)
    (s : State) :
  (forall p, p ∈ config -> RequestModel.model request ∉ Provider.model p) ->
  fst (request_model client config environ request token s)
  = Raise (HTTPException 404 "No matching model found")
  /\ get_matching_providers config (RequestModel.model request)
     = List.filter (fun p => bool_decide (RequestModel.model request ∈ Provider.model p))
         config
  /\ get_matching_providers config (RequestModel.model request) `sublist_of` config.
Proof.
  intros Hnone. split; [| split].
  - rewrite request_model_unfold. cbv zeta.
    apply matching_nil in Hnone. unfold get_matching_providers. by rewrite Hnone.
  - unfold get_matching_providers. rewrite matching_spec.
    apply filter_ext. intros p.
    destruct (py_in _ _) eqn:Hin.
    + symmetry. apply bool_decide_eq_true_2. by apply py_in_spec.
    + symmetry. apply bool_decide_eq_false_2. intros Hm%py_in_spec. congruence.
  - apply matching_sublist.
Qed.

Lemma C1_no_match_is_not_found_witness :
  fst (request_model Scenario.client_down Scenario.registry ∅
         (RequestModel.init Scenario.body_unknown) "token" ModelRequestHandler_init)
  = Raise (HTTPException 404 "No matching model found").
Proof.
  apply (C1_no_match_is_not_found Scenario.client_down Scenario.registry ∅
           (RequestModel.init Scenario.body_unknown) "token" ModelRequestHandler_init).
  apply matching_nil. reflexivity.
Defined.

(** C10: a request that matches no provider is refused before the loop is
    entered: the cursor keeps its value, no attempt is made and nothing is
    sent; only the line with the (empty) matching list is printed. *)
Theorem C10_not_found_keeps_cursor (client : Client) (config : list Provider.t)
    (environ : gmap string string) (request : RequestModel.t) (token : string)
    (s : State) :
  (forall p, p ∈ config -> RequestModel.model request ∉ Provider.model p) ->
  let out := request_model client config environ request token s in
  fst out = Raise (HTTPException 404 "No matching model found")
  /\ last_provider_index (snd out) = last_provider_index s
  /\ attempts (snd out) = attempts s
  /\ sent (snd out) = sent s
  /\ stdout (snd out) = (stdout s ++ [LogMatching []])%list.
Proof.
  intros Hnone out. subst out. rewrite request_model_unfold. cbv zeta.
  apply matching_nil in Hnone. unfold get_matching_providers. rewrite Hnone.
  by repeat split.
Qed.

Lemma C10_not_found_keeps_cursor_witness :
  last_provider_index
    (snd (request_model Scenario.client_down Scenario.registry ∅
            (RequestModel.init Scenario.body_unknown) "token" ModelRequestHandler_init))
  = -1.
Proof.
  apply (C10_not_found_keeps_cursor Scenario.client_down Scenario.registry ∅
           (RequestModel.init Scenario.body_unknown) "token" ModelRequestHandler_init).
  apply matching_nil. reflexivity.
Defined.

Lemma failed_ok (a : Attempt) (r : Response) : at_result a = Ok r -> ~ failed a.
Proof. unfold failed. by intros ->. Qed.

(** C2, as the code has it: when the model matches n >= 1 providers and every
    attempt made raises (for a buffered request: the client raises or the
    body does not decode), handling the request raises the 500 "All
    providers failed", the attempts are exactly the n indices of the computed
    order, in that order ([0..n-1], or [(offset + i) mod n] under
    round-robin), each on the provider at its index, and that order holds
    every index of [0..n-1] exactly once. *)
Theorem C2_all_providers_failed (client : Client) (config : list Provider.t)
    (environ : gmap string string) (request : RequestModel.t) (token : string)
    (s : State) :
  let providers := get_matching_providers config (RequestModel.model request) in
  let n := Z.of_nat (length providers) in
  let order :=
    traversal_order (use_round_robin_enabled environ) (last_provider_index s) n in
  let out := request_model client config environ request token s in
  let tr := attempts_since s (snd out) in
  providers ≠ [] ->
  Forall failed tr ->
  fst out = Raise (HTTPException 500 "All providers failed")
  /\ at_index <$> tr = order
  /\ order = (if use_round_robin_enabled environ
              then (fun i => (last_provider_index s + i) `mod` n) <$> seqZ 0 n
              else seqZ 0 n)
  /\ order ≡ₚ seqZ 0 n
  /\ length tr = length providers
  /\ Forall (fun a => providers !! Z.to_nat (at_index a) = Some (at_provider a)) tr.
Proof.
  intros providers n order out tr Hne Hfail.
  assert (Horder : order = (if use_round_robin_enabled environ
                            then (fun i => (last_provider_index s + i) `mod` n)
                                   <$> seqZ 0 n
                            else seqZ 0 n)).
  { subst order. unfold traversal_order, traversal_index.
    destruct (use_round_robin_enabled environ); [done | apply list_fmap_id]. }
  pose proof (request_model_run client config environ request token s Hne)
    as (_ & _ & Hidx & Hall & _ & Hres).
  fold providers n out tr in Hidx, Hall, Hres.
  destruct Hres as [(Hf & Hlen & _) | (tr0 & a & r & Htr & _ & Hok & _)].
  - split; [done |]. split; [| split; [done | split; [apply traversal_order_perm | split]]].
    + clear Horder. subst order. unfold traversal_order. rewrite Hidx, Hlen.
      apply take_ge. by rewrite length_fmap.
    + rewrite Hlen, length_seqZ. lia.
    + eapply Forall_impl; [exact Hall |]. by intros a [_ Ha].
  - exfalso. rewrite Htr, Forall_app, Forall_singleton in Hfail.
    destruct Hfail as [_ Hlast]. exact (failed_ok a r Hok Hlast).
Qed.

Lemma C2_all_providers_failed_witness :
  fst (request_model Scenario.client_down Scenario.registry Scenario.round_robin_on
         (RequestModel.init Scenario.body_plain) "token" ModelRequestHandler_init)
  = Raise (HTTPException 500 "All providers failed")
  /\ at_index <$>
       attempts_since ModelRequestHandler_init
         (snd (request_model Scenario.client_down Scenario.registry
                 Scenario.round_robin_on (RequestModel.init Scenario.body_plain)
                 "token" ModelRequestHandler_init))
     = [1; 0].
Proof.
  destruct (C2_all_providers_failed Scenario.client_down Scenario.registry
              Scenario.round_robin_on (RequestModel.init Scenario.body_plain)
              "token" ModelRequestHandler_init) as (Hres & Hidx & _).
  - discriminate.
  - vm_compute. repeat constructor.
  - split; [exact Hres | exact Hidx].
Defined.

(** C2 as stated does not hold when a provider call fails without raising.
    With two matching providers that both answer 500 with a JSON error body,
    every call fails in the specification's sense, yet the request is
    answered with the first provider's error body after a single attempt.
    And with every provider unreachable, a streaming request is answered
    with the first provider's response object after a single attempt. *)
Lemma C2_counterexample :
  let request := RequestModel.init Scenario.body_plain in
  let out := request_model Scenario.client_all_overloaded Scenario.registry ∅
               request "token" ModelRequestHandler_init in
  let streamed := RequestModel.init Scenario.body_stream in
  let out' := request_model Scenario.client_down Scenario.registry ∅
                streamed "token" ModelRequestHandler_init in
  (forall clock call,
     spec_call_failed (post Scenario.client_all_overloaded clock call) = true)
  /\ length (get_matching_providers Scenario.registry (RequestModel.model request))
     = 2%nat
  /\ fst out = Ok (JSONBody Scenario.overloaded)
  /\ at_index <$> attempts (snd out) = [0]
  /\ (forall clock call,
        spec_call_failed (post Scenario.client_down clock call) = true)
  /\ fst out'
     = Ok (StreamingResponse
             (FetchResponseStream (outbound_call streamed Scenario.openai))
             "text/event-stream")
  /\ at_index <$> attempts (snd out') = [0].
Proof. vm_compute. repeat split. Qed.

Lemma request_model_no_attempts (client : Client) (config : list Provider.t)
    (environ : gmap string string) (request : RequestModel.t) (token : string)
    (s : State) :
  get_matching_providers config (RequestModel.model request) = [] ->
  attempts_since s (snd (request_model client config environ request token s)) = [].
Proof.
  intros Hnil. rewrite request_model_unfold. cbv zeta. rewrite Hnil.
  unfold attempts_since. simpl. apply drop_all.
Qed.

(** In a history whose last attempt is the only one that did not fail, a
    successful attempt is the last one. *)
Lemma success_is_last (tr0 : list Attempt) (a0 a : Attempt) (r : Response) (k : nat) :
  Forall failed tr0 ->
  (tr0 ++ [a0])%list !! k = Some a -> at_result a = Ok r ->
  k = length tr0 /\ a = a0.
Proof.
  intros Hfail Hk Hok.
  destruct (decide (k < length tr0)%nat) as [Hlt | Hge].
  - rewrite lookup_app_l in Hk by done.
    destruct (failed_ok a r Hok). by apply (Forall_lookup_1 _ _ _ _ Hfail Hk).
  - rewrite lookup_app_r in Hk by lia.
    destruct (k - length tr0)%nat as [|m] eqn:Hm; simpl in Hk; [| done].
    split; [lia | congruence].
Qed.

(** C3: if the k-th attempt of the sweep succeeds, its response is what the
    coordinator returns and it is the last attempt made; it was made on the
    k-th provider of the computed order; every provider earlier in the order
    was attempted and failed; no provider later in the order was attempted. *)
Theorem C3_first_success_returns (client : Client) (config : list Provider.t)
    (environ : gmap string string) (request : RequestModel.t) (token : string)
    (s : State) (k : nat) (a : Attempt) (r : Response) :
  let providers := get_matching_providers config (RequestModel.model request) in
  let n := Z.of_nat (length providers) in
  let order :=
    traversal_order (use_round_robin_enabled environ) (last_provider_index s) n in
  let out := request_model client config environ request token s in
  let tr := attempts_since s (snd out) in
  tr !! k = Some a ->
  at_result a = Ok r ->
  fst out = Ok r
  /\ length tr = S k
  /\ order !! k = Some (at_index a)
  /\ providers !! Z.to_nat (at_index a) = Some (at_provider a)
  /\ (forall j idx, (j < k)%nat -> order !! j = Some idx ->
        exists a', tr !! j = Some a' /\ at_index a' = idx /\ failed a')
  /\ (forall j idx, (k < j)%nat -> order !! j = Some idx -> idx ∉ at_index <$> tr).
Proof.
  intros providers n order out tr Hk Hok.
  assert (Hne : providers ≠ []).
  { intros Hnil. subst tr out.
    rewrite (request_model_no_attempts _ _ _ _ _ _ Hnil) in Hk. done. }
  pose proof (request_model_run client config environ request token s Hne)
    as (_ & _ & Hidx & Hall & _ & Hres).
  fold providers n out tr in Hidx, Hall, Hres.
  change (traversal_index (use_round_robin_enabled environ) (last_provider_index s) n
            <$> seqZ 0 n) with order in Hidx.
  destruct Hres as [(_ & _ & Hfail) | (tr0 & a0 & r0 & Htr & Hfail & Hok0 & Hf)].
  { destruct (failed_ok a r Hok). by apply (Forall_lookup_1 _ _ _ _ Hfail Hk). }
  rewrite Htr in Hk.
  destruct (success_is_last tr0 a0 a r k Hfail Hk Hok) as [-> ->].
  assert (Hlen : length tr = S (length tr0)).
  { rewrite Htr, length_app. simpl. lia. }
  assert (Hr : r0 = r) by congruence. subst r0.
  assert (Hpos : forall j, (j < S (length tr0))%nat ->
            at_index <$> tr !! j = order !! j).
  { intros j Hj. rewrite <- list_lookup_fmap, Hidx, Hlen. by apply lookup_take_lt. }
  split; [done |]. split; [done |]. split; [| split; [| split]].
  - rewrite <- Hpos by lia. rewrite Htr.
    by rewrite lookup_app_r, Nat.sub_diag by lia.
  - apply (Forall_lookup_1 _ _ (length tr0) a0) in Hall as [_ Ha]; [done |].
    rewrite Htr. by rewrite lookup_app_r, Nat.sub_diag by lia.
  - intros j idx Hj Hord. rewrite <- Hpos in Hord by lia.
    destruct (tr !! j) as [a' |] eqn:Ha'; [| done].
    exists a'. split; [done |]. split; [by injection Hord |].
    rewrite Htr, lookup_app_l in Ha' by done.
    by apply (Forall_lookup_1 _ _ _ _ Hfail Ha').
  - intros j idx Hj Hord Hin.
    rewrite Hidx, Hlen in Hin.
    apply list_elem_of_lookup in Hin as (j' & Hj').
    apply lookup_take_Some in Hj' as [Hj' Hlt].
    pose proof (NoDup_lookup _ _ _ _
                  (traversal_order_NoDup (use_round_robin_enabled environ)
                     (last_provider_index s) n) Hord Hj').
    lia.
Qed.

Lemma C3_first_success_returns_witness :
  fst (request_model Scenario.client_first_down Scenario.registry ∅
         (RequestModel.init Scenario.body_plain) "token" ModelRequestHandler_init)
  = Ok (JSONBody Scenario.answer)
  /\ length
       (attempts_since ModelRequestHandler_init
          (snd (request_model Scenario.client_first_down Scenario.registry ∅
                  (RequestModel.init Scenario.body_plain) "token"
                  ModelRequestHandler_init)))
     = 2%nat.
Proof.
  destruct (C3_first_success_returns Scenario.client_first_down Scenario.registry ∅
              (RequestModel.init Scenario.body_plain) "token" ModelRequestHandler_init
              1%nat
              {| at_index := 1; at_cursor := 1; at_provider := Scenario.anthropic;
                 at_result := Ok (JSONBody Scenario.answer) |}
              (JSONBody Scenario.answer)) as (Hres & Hlen & _).
  - vm_compute. reflexivity.
  - reflexivity.
  - split; [exact Hres | exact Hlen].
Defined.

(** ** The cursor *)

Lemma traversal_order_elem_of (use_round_robin : bool) (offset n idx : Z) :
  idx ∈ traversal_order use_round_robin offset n <-> 0 <= idx < n.
Proof. rewrite traversal_order_perm, elem_of_seqZ. lia. Qed.

Section SweepFacts.

Variable providers : list Provider.t.
Variable use_round_robin : bool.
Variable offset : Z.
Variable s : State.
Variable out : Result Response * State.
Variable tr : list Attempt.

Let n : Z := Z.of_nat (length providers).

Hypothesis Hpost :
  loop_post providers (traversal_index use_round_robin offset n) (seqZ 0 n) s out tr.

Lemma sweep_indices_in_range : Forall (fun a => 0 <= at_index a < n) tr.
Proof.
  destruct Hpost as (_ & _ & Hidx & _).
  apply Forall_forall. intros a Ha.
  apply (traversal_order_elem_of use_round_robin offset n).
  apply (list_elem_of_fmap_2 at_index) in Ha. rewrite Hidx in Ha.
  by apply (subseteq_take (length tr)).
Qed.

Lemma sweep_nonempty : providers ≠ [] -> tr ≠ [].
Proof.
  intros Hne Hnil.
  destruct Hpost as (_ & _ & _ & _ & _ & [(_ & Hlen & _) | (tr0 & a & r & Htr & _)]).
  - rewrite Hnil, length_seqZ in Hlen. subst n.
    destruct providers; [done | simpl in Hlen; lia].
  - rewrite Hnil in Htr. by destruct tr0.
Qed.

Lemma sweep_cursor_is_last :
  providers ≠ [] ->
  exists a, last tr = Some a /\ last_provider_index (snd out) = at_index a
            /\ 0 <= at_index a < n.
Proof.
  intros Hne. pose proof (sweep_nonempty Hne) as Htr.
  destruct (last tr) as [a |] eqn:Hlast; [| by apply last_None in Hlast].
  exists a. split; [done |].
  destruct Hpost as (_ & _ & _ & _ & Hcur & _). rewrite Hlast in Hcur.
  split; [done |].
  apply (Forall_forall (fun a => 0 <= at_index a < n) tr); [apply sweep_indices_in_range |].
  by apply last_Some_elem_of.
Qed.

End SweepFacts.

Lemma request_model_cursor (client : Client) (config : list Provider.t)
    (environ : gmap string string) (request : RequestModel.t) (token : string)
    (s : State) :
  let providers := get_matching_providers config (RequestModel.model request) in
  let n := Z.of_nat (length providers) in
  let out := request_model client config environ request token s in
  Forall (fun a => 0 <= at_index a <= n - 1 /\ at_cursor a = at_index a)
    (attempts_since s (snd out))
  /\ match providers with
     | [] => last_provider_index (snd out) = last_provider_index s
     | _ :: _ => 0 <= last_provider_index (snd out) <= n - 1
     end.
Proof.
  intros providers n out.
  destruct (decide (providers = [])) as [Hnil | Hne].
  - subst out. rewrite (request_model_no_attempts _ _ _ _ _ _ Hnil).
    split; [constructor |]. rewrite Hnil.
    rewrite request_model_unfold. cbv zeta. fold providers. by rewrite Hnil.
  - pose proof (request_model_run client config environ request token s Hne) as Hpost.
    fold providers n out in Hpost. split.
    + pose proof (sweep_indices_in_range _ _ _ _ _ _ Hpost) as Hrange.
      destruct Hpost as (_ & _ & _ & Hall & _).
      rewrite Forall_forall in Hrange. rewrite Forall_forall in Hall.
      apply Forall_forall. intros a Ha.
      specialize (Hrange a Ha). destruct (Hall a Ha) as [Hc _].
      fold n in Hrange. split; [lia | done].
    + destruct (sweep_cursor_is_last _ _ _ _ _ _ Hpost Hne) as (a & _ & Hcur & Hr).
      fold n in Hr. destruct providers; [done |]. lia.
Qed.

Lemma handle_cursor_lower (config : list Provider.t) (c : Incoming) (s : State) :
  -1 <= last_provider_index s -> -1 <= last_provider_index (handle config c s).
Proof.
  intros Hs. unfold handle.
  pose proof (request_model_cursor (in_client c) config (in_environ c)
                (in_request c) (in_token c) s) as [_ Hcur].
  cbv zeta in Hcur.
  destruct (get_matching_providers config (RequestModel.model (in_request c))); lia.
Qed.

Lemma fold_handle_cursor_lower (config : list Provider.t) (calls : list Incoming)
    (s : State) :
  -1 <= last_provider_index s ->
  -1 <= last_provider_index (fold_left (fun s c => handle config c s) calls s).
Proof.
  revert s. induction calls as [|c calls IH]; intros s Hs; simpl; [done |].
  apply IH. by apply handle_cursor_lower.
Qed.

(** ** Round-robin *)

Lemma sweep_head (providers : list Provider.t) (use_round_robin : bool) (offset : Z)
    (s : State) (out : Result Response * State) (tr : list Attempt) :
  let n := Z.of_nat (length providers) in
  loop_post providers (traversal_index use_round_robin offset n) (seqZ 0 n) s out tr ->
  providers ≠ [] ->
  at_index <$> head tr = Some (traversal_index use_round_robin offset n 0).
Proof.
  intros n Hpost Hne.
  pose proof (sweep_nonempty _ _ _ _ _ _ Hpost Hne) as Htr.
  destruct Hpost as (_ & _ & Hidx & _).
  destruct tr as [|a tr']; [done |].
  assert (Hn : 0 < n) by (subst n; destruct providers; [done | simpl; lia]).
  rewrite (seqZ_cons 0 n) in Hidx by done.
  rewrite !fmap_cons in Hidx. simpl in Hidx.
  injection Hidx as Ha _. simpl. by rewrite Ha.
Qed.

Lemma mod_minus_one (n : Z) : 0 < n -> (-1 + 0) `mod` n = n - 1.
Proof.
  intros Hn. replace (-1 + 0) with ((n - 1) + (-1) * n) by lia.
  rewrite Z_mod_plus_full. apply Z.mod_small. lia.
Qed.

(** C4: under round-robin a sweep over n >= 1 providers attempts, in order,
    the indices [(offset + i) mod n] for i = 0, 1, ..., where [offset] is
    the cursor as the call finds it (-1 for a fresh handler, which then
    starts at n - 1); each attempt is made with the cursor already at its
    index, and the cursor stays at the last index attempted.  So a second
    call over the same providers starts at (the first call's final index)
    mod n, which is that index itself. *)
Theorem C4_round_robin_rotation (client client2 : Client)
    (request request2 : RequestModel.t) (providers : list Provider.t) (s : State) :
  let n := Z.of_nat (length providers) in
  let s1 := snd (try_all_providers client request providers true s) in
  let tr1 := attempts_since s s1 in
  let s2 := snd (try_all_providers client2 request2 providers true s1) in
  let tr2 := attempts_since s1 s2 in
  let fresh :=
    snd (try_all_providers client request providers true ModelRequestHandler_init) in
  providers ≠ [] ->
  at_index <$> tr1
  = take (length tr1) ((fun i => (last_provider_index s + i) `mod` n) <$> seqZ 0 n)
  /\ Forall (fun a => at_cursor a = at_index a) tr1
  /\ at_index <$> head tr1 = Some (last_provider_index s `mod` n)
  /\ at_index <$> last tr1 = Some (last_provider_index s1)
  /\ at_index <$> head tr2 = Some (last_provider_index s1 `mod` n)
  /\ last_provider_index s1 `mod` n = last_provider_index s1
  /\ at_index <$> head (attempts_since ModelRequestHandler_init fresh) = Some (n - 1).
Proof.
  intros n s1 tr1 s2 tr2 fresh Hne.
  assert (Hn : 0 < n) by (subst n; destruct providers; [done | simpl; lia]).
  pose proof (try_all_providers_run client request providers true s) as Hrun1.
  pose proof (try_all_providers_run client2 request2 providers true s1) as Hrun2.
  pose proof (try_all_providers_run client request providers true
                ModelRequestHandler_init) as Hrun0.
  cbv zeta in Hrun1, Hrun2, Hrun0. fold n s1 tr1 in Hrun1. fold n s2 tr2 in Hrun2.
  fold n fresh in Hrun0.
  destruct (sweep_cursor_is_last _ _ _ _ _ _ Hrun1 Hne) as (a & Hlast & Hcur & Hr).
  fold s1 n in Hcur, Hr.
  split; [| split; [| split; [| split; [| split; [| split]]]]].
  - by destruct Hrun1 as (_ & _ & Hidx & _).
  - destruct Hrun1 as (_ & _ & _ & Hall & _).
    eapply Forall_impl; [exact Hall |]. by intros a' [Ha' _].
  - rewrite (sweep_head _ _ _ _ _ _ Hrun1 Hne). unfold traversal_index.
    by rewrite Z.add_0_r.
  - rewrite Hlast. simpl. by rewrite Hcur.
  - rewrite (sweep_head _ _ _ _ _ _ Hrun2 Hne). unfold traversal_index.
    by rewrite Z.add_0_r.
  - apply Z.mod_small. lia.
  - rewrite (sweep_head _ _ _ _ _ _ Hrun0 Hne). unfold traversal_index.
    change (last_provider_index ModelRequestHandler_init) with (-1).
    fold n. by rewrite mod_minus_one.
Qed.

Lemma C4_round_robin_rotation_witness :
  at_index <$>
    head (attempts_since
            (snd (try_all_providers Scenario.client_first_down
                    (RequestModel.init Scenario.body_plain) Scenario.registry true
                    ModelRequestHandler_init))
            (snd (try_all_providers Scenario.client_down
                    (RequestModel.init Scenario.body_plain) Scenario.registry true
                    (snd (try_all_providers Scenario.client_first_down
                            (RequestModel.init Scenario.body_plain) Scenario.registry
                            true ModelRequestHandler_init)))))
  = Some 1.
Proof.
  destruct (C4_round_robin_rotation Scenario.client_first_down Scenario.client_down
              (RequestModel.init Scenario.body_plain)
              (RequestModel.init Scenario.body_plain) Scenario.registry
              ModelRequestHandler_init) as (_ & _ & _ & _ & Hsecond & _).
  - discriminate.
  - exact Hsecond.
Defined.

(** ** What counts as a failure of one provider *)

Lemma attempt_log_error (a : Attempt) (e : Exn) (tr : list Attempt) :
  a ∈ tr -> at_result a = Raise e ->
  LogError (Provider.provider (at_provider a)) e ∈ concat (attempt_log <$> tr).
Proof.
  intros Ha He. apply list_elem_of_In, in_concat.
  exists (attempt_log a). split.
  - apply list_elem_of_In. by apply list_elem_of_fmap_2.
  - unfold attempt_log. rewrite He. right. by left.
Qed.

(** C8, as the code has it: in a sweep every exception that an attempt
    raises is caught by the coordinator, printed with the provider's name,
    and followed by the attempt on the next provider of the computed order
    (or, after the last one, by the 500); the coordinator ends with a
    response or with that 500 and with nothing else.  For a buffered request
    an attempt raises exactly when the client raises or the body does not
    decode: the status code plays no part, so an error status with a
    decodable body is returned as the answer.  For a streaming request the
    attempt returns the response object without sending anything, so the
    first provider of the order always answers. *)
Theorem C8_exceptions_recovered (client : Client) (config : list Provider.t)
    (environ : gmap string string) (request : RequestModel.t) (token : string)
    (s : State) :
  let providers := get_matching_providers config (RequestModel.model request) in
  let n := Z.of_nat (length providers) in
  let order :=
    traversal_order (use_round_robin_enabled environ) (last_provider_index s) n in
  let out := request_model client config environ request token s in
  let tr := attempts_since s (snd out) in
  providers ≠ [] ->
  stdout_since s (snd out) = LogMatching providers :: concat (attempt_log <$> tr)
  /\ (forall k a e,
        tr !! k = Some a -> at_result a = Raise e ->
        LogError (Provider.provider (at_provider a)) e ∈ stdout_since s (snd out)
        /\ match order !! S k with
           | Some idx => exists a', tr !! S k = Some a' /\ at_index a' = idx
           | None => fst out = Raise (HTTPException 500 "All providers failed")
           end)
  /\ (fst out = Raise (HTTPException 500 "All providers failed")
      \/ exists r, fst out = Ok r)
  /\ (forall p s1,
        RequestModel.stream request ≠ Some true ->
        fst (process_request client request p s1)
        = match post client (length (sent s1)) (outbound_call request p) with
          | PostRaises msg => Raise (TransportError msg)
          | PostResponse _ (Some v) => Ok (JSONBody v)
          | PostResponse _ None => Raise JSONDecodeError
          end)
  /\ (forall p s1,
        RequestModel.stream request = Some true ->
        fst (process_request client request p s1)
        = Ok (StreamingResponse (FetchResponseStream (outbound_call request p))
                "text/event-stream")
        /\ sent (snd (process_request client request p s1)) = sent s1).
Proof.
  intros providers n order out tr Hne.
  pose proof (request_model_run client config environ request token s Hne)
    as (_ & Hout & Hidx & _ & _ & Hres).
  fold providers n out tr in Hout, Hidx, Hres.
  change (traversal_index (use_round_robin_enabled environ) (last_provider_index s) n
            <$> seqZ 0 n) with order in Hidx.
  assert (Hlog : stdout_since s (snd out)
                 = LogMatching providers :: concat (attempt_log <$> tr)).
  { unfold stdout_since. rewrite Hout. simpl. rewrite <- app_assoc.
    by rewrite drop_app_length. }
  assert (Hle : (length tr <= length order)%nat).
  { apply (f_equal length) in Hidx. rewrite length_fmap, length_take in Hidx. lia. }
  split; [exact Hlog |]. split; [| split; [| split]].
  - intros k a e Hk He. split.
    + rewrite Hlog. right. apply attempt_log_error; [| done].
      by apply list_elem_of_lookup_2 in Hk.
    + assert (Hnext : (S k < length tr)%nat
                      \/ (fst out = Raise (HTTPException 500 "All providers failed")
                          /\ length tr = length order)).
      { destruct Hres as [(Hf & Hlen & _) | (tr0 & a0 & r0 & Htr & Hfail & Hok0 & _)].
        - right. split; [done |].
          unfold order. by rewrite traversal_order_length, Hlen, length_seqZ.
        - left. rewrite Htr, length_app. simpl.
          destruct (decide (k < length tr0)%nat) as [Hlt | Hge]; [lia |].
          rewrite Htr, lookup_app_r in Hk by lia.
          destruct (k - length tr0)%nat; simpl in Hk; [| done].
          congruence. }
      destruct (order !! S k) as [idx |] eqn:Hord.
      * assert (Hlt : (S k < length tr)%nat).
        { destruct Hnext as [Hlt | [_ Hlen]]; [done |].
          apply lookup_lt_Some in Hord. lia. }
        destruct (lookup_lt_is_Some_2 tr (S k) Hlt) as [a' Ha'].
        exists a'. split; [done |].
        assert (Hi : (at_index <$> tr) !! S k = Some (at_index a'))
          by by rewrite list_lookup_fmap, Ha'.
        rewrite Hidx, lookup_take_lt in Hi by done. congruence.
      * destruct Hnext as [Hlt | [Hf _]]; [| done].
        apply lookup_ge_None in Hord. lia.
  - destruct Hres as [(Hf & _) | (tr0 & a0 & r0 & _ & _ & _ & Hf)];
      [by left | right; by exists r0].
  - intros p s1 Hs. by apply process_request_buffered.
  - intros p s1 Hs. by apply process_request_stream.
Qed.

Lemma C8_exceptions_recovered_witness :
  stdout_since ModelRequestHandler_init
    (snd (request_model Scenario.client_first_down Scenario.registry ∅
            (RequestModel.init Scenario.body_plain) "token" ModelRequestHandler_init))
  = [LogMatching Scenario.registry;
     LogProvider "openai";
     LogError "openai" (TransportError "connection refused");
     LogProvider "anthropic"].
Proof.
  destruct (C8_exceptions_recovered Scenario.client_first_down Scenario.registry ∅
              (RequestModel.init Scenario.body_plain) "token" ModelRequestHandler_init)
    as (Hlog & _).
  - discriminate.
  - exact Hlog.
Defined.

(** C8 as stated does not hold.  The first provider answers with status 500
    and a JSON error body: the coordinator returns that body as the result,
    prints no error and never tries the second provider.  And with every
    provider unreachable, a streaming request is still answered with the
    first provider's response object; the transport error is raised later,
    when the returned generator is iterated, outside the coordinator. *)
Lemma C8_counterexample :
  let request := RequestModel.init Scenario.body_plain in
  let out := request_model Scenario.client_first_overloaded Scenario.registry ∅
               request "token" ModelRequestHandler_init in
  let streamed := RequestModel.init Scenario.body_stream in
  let out' := request_model Scenario.client_down Scenario.registry ∅
                streamed "token" ModelRequestHandler_init in
  let gen := FetchResponseStream (outbound_call streamed Scenario.openai) in
  (post Scenario.client_first_overloaded 0 (outbound_call request Scenario.openai)
   = PostResponse 500 (Some Scenario.overloaded)
   /\ fst out = Ok (JSONBody Scenario.overloaded)
   /\ at_index <$> attempts (snd out) = [0]
   /\ stdout (snd out) = [LogMatching Scenario.registry; LogProvider "openai"])
  /\ (fst out' = Ok (StreamingResponse gen "text/event-stream")
      /\ at_index <$> attempts (snd out') = [0]
      /\ sent (snd out') = []
      /\ stdout (snd out') = [LogMatching Scenario.registry; LogProvider "openai"]
      /\ fst (iterate Scenario.client_down gen (snd out'))
         = ([], Raise (TransportError "connection refused"))).
Proof. vm_compute. repeat split. Qed.

(** * Evaluations of the translator *)

Lemma C6_anthropic_payload_witness :
  request_payload (RequestModel.init Scenario.body_logprobs) Scenario.anthropic
    !! "max_tokens" = Some (PyInt 1000)
  /\ request_payload (RequestModel.init Scenario.body_logprobs) Scenario.anthropic
       !! "logprobs" = None
  /\ request_payload (RequestModel.init Scenario.body_logprobs) Scenario.anthropic
       !! "top_logprobs" = None.
Proof.
  apply (C6_anthropic_payload (RequestModel.init Scenario.body_logprobs)
           Scenario.anthropic).
  reflexivity.
Defined.

Lemma C5_other_payload_witness :
  request_payload (RequestModel.init Scenario.body_logprobs) Scenario.openai
    !! "logprobs" = Some (PyBool true)
  /\ request_payload (RequestModel.init Scenario.body_logprobs) Scenario.openai
       !! "top_logprobs" = Some (PyInt 5).
Proof.
  destruct (C5_other_payload Scenario.openai) as [_ Hbody].
  - discriminate.
  - exact (Hbody Scenario.body_logprobs).
Defined.

(** C5 as stated does not hold: a body that does not supply [logprobs] at
    all still gets [logprobs = False] in the payload for a provider that is
    not "anthropic", because the request class defaults the field to
    [False]. *)
Lemma C5_counterexample :
  Provider.provider Scenario.openai ≠ "anthropic"
  /\ RequestModel.body_logprobs Scenario.body_plain = RequestModel.omitted
  /\ request_payload (RequestModel.init Scenario.body_plain) Scenario.openai
       !! "logprobs" = Some (PyBool false).
Proof. split; [discriminate |]. split; reflexivity. Qed.

(** * Further properties *)

(** ** One iteration of the loop, and the trace of a run *)

Lemma try_loop_unfold (client : Client) (request : RequestModel.t)
    (providers : list Provider.t) (use_round_robin : bool)
    (num_providers start_index i : Z) (rest : list Z) (s : State) :
  try_loop client request providers use_round_robin num_providers start_index
    (i :: rest) s
  = let idx := traversal_index use_round_robin start_index num_providers i in
    let s1 := with_cursor idx s in
    match py_getitem providers idx with
    | None => (Raise IndexError, s1)
    | Some p =>
        let out := process_request client request p s1 in
        let s3 := record_attempt {| at_index := idx; at_cursor := idx;
                                    at_provider := p; at_result := fst out |}
                    (snd out) in
        match fst out with
        | Ok r => (Ok r, s3)
        | Raise e =>
            try_loop client request providers use_round_robin num_providers
              start_index rest (snd (print (LogError (Provider.provider p) e) s3))
        end
    end.
Proof.
  cbv zeta. simpl. unfold bind at 1, set_last_provider_index at 1. simpl.
  unfold bind at 1, get_last_provider_index at 1. simpl.
  fold (traversal_index use_round_robin start_index num_providers i).
  unfold bind at 1, getitem.
  destruct (py_getitem providers _) as [p |]; [| reflexivity].
  unfold ret at 1, try_except, attempt, with_cursor. simpl.
  destruct (process_request client request p _) as [[r | e] s2]; reflexivity.
Qed.

Lemma process_request_result (client : Client) (request : RequestModel.t)
    (provider : Provider.t) (s : State) :
  fst (process_request client request provider s)
  = attempt_result client request provider (length (sent s))
  /\ sent (snd (process_request client request provider s))
     = (sent s
        ++ calls_sent request
             [{| at_index := 0; at_cursor := 0; at_provider := provider;
                 at_result := fst (process_request client request provider s) |}])%list.
Proof.
  unfold attempt_result, calls_sent.
  destruct (decide (RequestModel.stream request = Some true)) as [Hs | Hs].
  - destruct (process_request_stream client request provider s Hs) as [Hr Hsent].
    rewrite Hs, Hr, Hsent. by rewrite app_nil_r.
  - destruct (process_request_buffered client request provider s Hs) as [Hr Hsent].
    rewrite Hr, Hsent. by destruct (RequestModel.stream request) as [[|]|].
Qed.

Lemma calls_sent_cons (request : RequestModel.t) (a : Attempt) (tr : list Attempt) :
  calls_sent request (a :: tr) = (calls_sent request [a] ++ calls_sent request tr)%list.
Proof. unfold calls_sent. by destruct (RequestModel.stream request) as [[|]|]. Qed.

Lemma calls_sent_provider (request : RequestModel.t) (a a' : Attempt) :
  at_provider a = at_provider a' -> calls_sent request [a] = calls_sent request [a'].
Proof.
  intros Hp. unfold calls_sent.
  destruct (RequestModel.stream request) as [[|]|]; simpl; by rewrite ?Hp.
Qed.

(** A run of the loop sends exactly the requests of its attempts, and the
    outcome of each attempt is the client's answer at the moment it is made. *)
Lemma try_loop_trace (client : Client) (request : RequestModel.t)
    (providers : list Provider.t) (use_round_robin : bool)
    (num_providers start_index : Z) (range : list Z) (s : State) :
  let out := try_loop client request providers use_round_robin num_providers
               start_index range s in
  exists tr,
    attempts (snd out) = (attempts s ++ tr)%list
    /\ sent (snd out) = (sent s ++ calls_sent request tr)%list
    /\ forall j a, tr !! j = Some a ->
         at_result a
         = attempt_result client request (at_provider a)
             (length (sent s) + length (calls_sent request (take j tr))).
Proof.
  revert s. induction range as [|i rest IH]; intros s.
  - exists []. simpl. unfold calls_sent.
    destruct (RequestModel.stream request) as [[|]|]; simpl;
      rewrite !app_nil_r; by repeat split.
  - cbv zeta. rewrite try_loop_unfold. cbv zeta.
    set (idx := traversal_index use_round_robin start_index num_providers i).
    destruct (py_getitem providers idx) as [p |].
    2:{ exists []. simpl. unfold calls_sent.
        destruct (RequestModel.stream request) as [[|]|]; simpl;
          rewrite !app_nil_r; by repeat split. }
    pose proof (process_request_frame client request p (with_cursor idx s))
      as (_ & Hatt & _).
    pose proof (process_request_result client request p (with_cursor idx s))
      as (Hres & Hsent).
    set (out1 := process_request client request p (with_cursor idx s)) in *.
    set (a := {| at_index := idx; at_cursor := idx; at_provider := p;
                 at_result := fst out1 |}).
    rewrite (calls_sent_provider request _ a) in Hsent by done.
    cbv zeta in Hatt. change (sent (with_cursor idx s)) with (sent s) in *.
    change (attempts (with_cursor idx s)) with (attempts s) in *.
    assert (Ha : forall tr' j a',
              (a :: tr') !! j = Some a' ->
              (forall j a', tr' !! j = Some a' ->
                 at_result a'
                 = attempt_result client request (at_provider a')
                     (length (sent s ++ calls_sent request [a])
                      + length (calls_sent request (take j tr')))) ->
              at_result a'
              = attempt_result client request (at_provider a')
                  (length (sent s) + length (calls_sent request (take j (a :: tr'))))).
    { intros tr' [|j] a' Hj Htail.
      - injection Hj as <-. simpl.
        replace (length (calls_sent request [])) with 0%nat
          by (unfold calls_sent; by destruct (RequestModel.stream request) as [[|]|]).
        by rewrite Nat.add_0_r.
      - simpl in Hj. rewrite (Htail j a' Hj). f_equal.
        rewrite firstn_cons, (calls_sent_cons request a (take j tr')), !length_app.
        lia. }
    destruct (fst out1) as [r | e] eqn:Hr.
    + exists [a]. simpl. rewrite Hatt, Hsent. repeat split.
      intros j a' Hj. apply (Ha [] j a' Hj). intros j' a'' Hnil. done.
    + set (s4 := snd (print (LogError (Provider.provider p) e)
                        (record_attempt a (snd out1)))).
      destruct (IH s4) as (tr & Hatt' & Hsent' & Hres').
      exists (a :: tr). split; [| split].
      * rewrite Hatt'. simpl. rewrite Hatt. by rewrite <- app_assoc.
      * rewrite Hsent'. simpl. rewrite Hsent, (calls_sent_cons request a tr).
        by rewrite <- app_assoc.
      * intros j a' Hj. apply (Ha tr j a' Hj). intros j' a'' Hj'.
        rewrite (Hres' j' a'' Hj'). simpl. by rewrite Hsent.
Qed.

Lemma calls_sent_nil (request : RequestModel.t) : calls_sent request [] = [].
Proof. unfold calls_sent. by destruct (RequestModel.stream request) as [[|]|]. Qed.

Lemma try_all_providers_trace (client : Client) (request : RequestModel.t)
    (providers : list Provider.t) (use_round_robin : bool) (s : State) :
  let out := try_all_providers client request providers use_round_robin s in
  let tr := attempts_since s (snd out) in
  sent (snd out) = (sent s ++ calls_sent request tr)%list
  /\ forall j a, tr !! j = Some a ->
       at_result a
       = attempt_result client request (at_provider a)
           (length (sent s) + length (calls_sent request (take j tr))).
Proof.
  intros out tr.
  assert (Hex : exists tr',
            attempts (snd out) = (attempts s ++ tr')%list
            /\ sent (snd out) = (sent s ++ calls_sent request tr')%list
            /\ forall j a, tr' !! j = Some a ->
                 at_result a
                 = attempt_result client request (at_provider a)
                     (length (sent s) + length (calls_sent request (take j tr')))).
  { subst out. unfold try_all_providers, bind.
    destruct use_round_robin; simpl; apply try_loop_trace. }
  destruct Hex as (tr' & Hatt & Hsent & Hres).
  assert (Htr : tr = tr').
  { subst tr. unfold attempts_since. rewrite Hatt. apply drop_app_length. }
  rewrite Htr. by split.
Qed.

Lemma request_model_trace (client : Client) (config : list Provider.t)
    (environ : gmap string string) (request : RequestModel.t) (token : string)
    (s : State) :
  let out := request_model client config environ request token s in
  let tr := attempts_since s (snd out) in
  sent (snd out) = (sent s ++ calls_sent request tr)%list
  /\ forall j a, tr !! j = Some a ->
       at_result a
       = attempt_result client request (at_provider a)
           (length (sent s) + length (calls_sent request (take j tr))).
Proof.
  cbv zeta. rewrite request_model_unfold. cbv zeta.
  destruct (get_matching_providers config (RequestModel.model request))
    as [|p rest] eqn:Hm.
  - unfold attempts_since. simpl. rewrite drop_all, calls_sent_nil, app_nil_r.
    split; [done |]. intros j a Hj. done.
  - exact (try_all_providers_trace client request (p :: rest)
             (use_round_robin_enabled environ)
             (snd (print (LogMatching (p :: rest)) s))).
Qed.

(** ** The configuration loader *)

(** X2: when [api.yaml] is missing or is not valid YAML, [load_config] prints
    one message and returns the empty list; with that configuration every
    request is answered with the 404, nothing is sent to any provider and
    the cursor is not touched. *)
Theorem unreadable_config_answers_404 (opened : OpenResult)
    (safe_load : string -> YamlResult) (client : Client)
    (environ : gmap string string) (request : RequestModel.t) (token : string)
    (s : State) :
  opened = FileNotFoundError
  \/ (exists text, opened = FileText text /\ safe_load text = YAMLError) ->
  let config := fst (load_config opened safe_load) in
  let out := request_model client config environ request token s in
  config = []
  /\ length (snd (load_config opened safe_load)) = 1%nat
  /\ fst out = Raise (HTTPException 404 "No matching model found")
  /\ sent (snd out) = sent s
  /\ attempts (snd out) = attempts s
  /\ last_provider_index (snd out) = last_provider_index s.
Proof.
  intros Hbad config out.
  assert (Hload : load_config opened safe_load = ([], [ConfigFileNotFound])
                  \/ load_config opened safe_load = ([], [ConfigFileMalformed])).
  { destruct Hbad as [-> | (text & -> & Hyaml)]; [by left |].
    right. unfold load_config. by rewrite Hyaml. }
  subst out config.
  destruct Hload as [-> | ->]; simpl; by repeat split.
Qed.

Lemma unreadable_config_answers_404_witness :
  fst (request_model Scenario.client_first_down
         (fst (load_config (FileText "providers: [") (fun _ => YAMLError))) ∅
         (RequestModel.init Scenario.body_plain) "token" ModelRequestHandler_init)
  = Raise (HTTPException 404 "No matching model found").
Proof.
  apply (unreadable_config_answers_404 (FileText "providers: [") (fun _ => YAMLError)
           Scenario.client_first_down ∅ (RequestModel.init Scenario.body_plain)
           "token" ModelRequestHandler_init).
  right. exists "providers: [". split; reflexivity.
Defined.

(** ** The payload and the requests that are sent *)

Lemma request_payload_lookup_common (request : RequestModel.t) (provider : Provider.t)
    (k : string) :
  k ≠ "max_tokens" -> k ≠ "logprobs" -> k ≠ "top_logprobs" ->
  request_payload request provider !! k
  = set_if_not_none "include_usage" PyBool (RequestModel.include_usage request)
      (set_if_not_none "stream" PyBool (RequestModel.stream request)
         (<["messages" := PyList (convert_messages (RequestModel.messages request))]>
            (<["model" := PyStr (RequestModel.model request)]> ∅))) !! k.
Proof.
  intros H1 H2 H3.
  destruct (decide (Provider.provider provider = "anthropic")) as [Hp | Hp].
  - rewrite request_payload_anthropic by done. by rewrite lookup_insert_ne.
  - rewrite request_payload_other by done.
    by rewrite !set_if_not_none_lookup_ne by done.
Qed.

(** X3: whatever the provider, the payload carries the request's model name,
    [stream] and [include_usage] exactly when they are not [None] (so with
    the default [False] when the body leaves them out), and no key outside
    the seven that [process_request] knows. *)
Theorem payload_common_fields (request : RequestModel.t) (provider : Provider.t) :
  request_payload request provider !! "model" = Some (PyStr (RequestModel.model request))
  /\ request_payload request provider !! "stream"
     = PyBool <$> RequestModel.stream request
  /\ request_payload request provider !! "include_usage"
     = PyBool <$> RequestModel.include_usage request
  /\ (forall k,
        k ∉ ["model"; "messages"; "stream"; "include_usage";
             "max_tokens"; "logprobs"; "top_logprobs"] ->
        request_payload request provider !! k = None)
  /\ (forall body,
        request_payload (RequestModel.init body) provider !! "stream"
        = match RequestModel.body_stream body with
          | RequestModel.omitted => Some (PyBool false)
          | RequestModel.given v => PyBool <$> v
          end
        /\ request_payload (RequestModel.init body) provider !! "include_usage"
           = match RequestModel.body_include_usage body with
             | RequestModel.omitted => Some (PyBool false)
             | RequestModel.given v => PyBool <$> v
             end).
Proof.
  assert (Hstream : forall request,
            request_payload request provider !! "stream"
            = PyBool <$> RequestModel.stream request).
  { intros r. rewrite request_payload_lookup_common by done.
    rewrite set_if_not_none_lookup_ne by done. rewrite set_if_not_none_lookup.
    destruct (RequestModel.stream r); [done |]. by rewrite !lookup_insert_ne. }
  assert (Husage : forall request,
            request_payload request provider !! "include_usage"
            = PyBool <$> RequestModel.include_usage request).
  { intros r. rewrite request_payload_lookup_common by done.
    rewrite set_if_not_none_lookup.
    destruct (RequestModel.include_usage r); [done |].
    rewrite set_if_not_none_lookup_ne by done. by rewrite !lookup_insert_ne. }
  split; [| split; [apply Hstream | split; [apply Husage | split]]].
  - rewrite request_payload_lookup_common by done.
    rewrite !set_if_not_none_lookup_ne by done.
    rewrite lookup_insert_ne by done. apply lookup_insert_eq.
  - intros k Hk.
    assert (Hne : k ≠ "model" /\ k ≠ "messages" /\ k ≠ "stream" /\ k ≠ "include_usage"
                  /\ k ≠ "max_tokens" /\ k ≠ "logprobs" /\ k ≠ "top_logprobs").
    { repeat split; intros ->; apply Hk; repeat constructor. }
    destruct Hne as (? & ? & ? & ? & ? & ? & ?).
    rewrite request_payload_lookup_common by done. by apply base_payload_lookup.
  - intros body. rewrite Hstream, Husage. simpl.
    by destruct (RequestModel.body_stream body), (RequestModel.body_include_usage body).
Qed.

Lemma request_model_attempt_providers (client : Client) (config : list Provider.t)
    (environ : gmap string string) (request : RequestModel.t) (token : string)
    (s : State) (a : Attempt) :
  a ∈ attempts_since s (snd (request_model client config environ request token s)) ->
  get_matching_providers config (RequestModel.model request) ≠ []
  /\ at_provider a ∈ get_matching_providers config (RequestModel.model request).
Proof.
  intros Ha.
  assert (Hne : get_matching_providers config (RequestModel.model request) ≠ []).
  { intros Hnil. rewrite (request_model_no_attempts _ _ _ _ _ _ Hnil) in Ha.
    by apply not_elem_of_nil in Ha. }
  split; [done |].
  pose proof (request_model_run client config environ request token s Hne)
    as (_ & _ & _ & Hall & _).
  rewrite Forall_forall in Hall. destruct (Hall a Ha) as [_ Hlook].
  by apply list_elem_of_lookup_2 in Hlook.
Qed.

(** X4: every request sent while a request is handled is the POST of one
    attempt, in attempt order; it goes to the URL of a registry entry that
    lists the requested model, with that entry's key as bearer token and the
    payload built for that entry.  A streaming request sends nothing while
    it is handled. *)
Theorem requests_go_to_matching_providers (client : Client)
    (config : list Provider.t) (environ : gmap string string)
    (request : RequestModel.t) (token : string) (s : State) :
  let out := request_model client config environ request token s in
  let tr := attempts_since s (snd out) in
  sent (snd out)
  = (sent s ++ match RequestModel.stream request with
               | Some true => []
               | _ => (fun a => outbound_call request (at_provider a)) <$> tr
               end)%list
  /\ forall call,
       call ∈ drop (length (sent s)) (sent (snd out)) ->
       exists p,
         p ∈ config
         /\ RequestModel.model request ∈ Provider.model p
         /\ out_url call = Provider.base_url p
         /\ out_headers call !! "Authorization" = Some ("Bearer " +:+ Provider.api p)
         /\ out_headers call !! "Content-Type" = Some "application/json"
         /\ out_payload call = request_payload request p.
Proof.
  intros out tr.
  pose proof (request_model_trace client config environ request token s) as [Hsent _].
  fold out tr in Hsent. split; [exact Hsent |].
  intros call Hcall. rewrite Hsent, drop_app_length in Hcall.
  unfold calls_sent in Hcall.
  assert (Ha : exists a, a ∈ tr /\ call = outbound_call request (at_provider a)).
  { destruct (RequestModel.stream request) as [[|]|];
      [by apply not_elem_of_nil in Hcall | |];
      apply list_elem_of_fmap in Hcall as (a & -> & Ha); by exists a. }
  destruct Ha as (a & Ha & ->).
  destruct (request_model_attempt_providers client config environ request token s a Ha)
    as [_ Hp].
  apply matching_elem_of in Hp as [Hconf Hmodel].
  exists (at_provider a). by repeat split.
Qed.

(** X5: a sweep never tries a provider twice: the indices attempted are pairwise
    different, they are an initial part of the computed order, and there are
    at most as many attempts as matching providers. *)
Theorem no_provider_tried_twice (client : Client) (config : list Provider.t)
    (environ : gmap string string) (request : RequestModel.t) (token : string)
    (s : State) :
  let providers := get_matching_providers config (RequestModel.model request) in
  let n := Z.of_nat (length providers) in
  let order :=
    traversal_order (use_round_robin_enabled environ) (last_provider_index s) n in
  let out := request_model client config environ request token s in
  let tr := attempts_since s (snd out) in
  NoDup (at_index <$> tr)
  /\ at_index <$> tr `prefix_of` order
  /\ (length tr <= length providers)%nat.
Proof.
  intros providers n order out tr.
  destruct (decide (providers = [])) as [Hnil | Hne].
  - subst tr out. rewrite (request_model_no_attempts _ _ _ _ _ _ Hnil).
    split; [constructor |]. split; [apply prefix_nil | simpl; lia].
  - pose proof (request_model_run client config environ request token s Hne)
      as (_ & _ & Hidx & _).
    fold providers n out tr in Hidx.
    change (traversal_index (use_round_robin_enabled environ) (last_provider_index s) n
              <$> seqZ 0 n) with order in Hidx.
    assert (Hpre : at_index <$> tr `prefix_of` order).
    { rewrite Hidx. apply prefix_take. }
    split; [| split; [done |]].
    + rewrite Hidx. apply (sublist_NoDup _ order); [| apply sublist_take].
      apply traversal_order_NoDup.
    + apply prefix_length in Hpre. rewrite length_fmap in Hpre.
      unfold order in Hpre. rewrite traversal_order_length in Hpre. lia.
Qed.

(** X6: the outcome of handling a request is one of three: the 404, exactly when
    no provider matches; the 500, exactly when providers match, each was
    attempted and every attempt failed; or the response of the last attempt,
    exactly when that attempt succeeded.  No other exception leaves the
    handler. *)
Theorem outcome_classification (client : Client) (config : list Provider.t)
    (environ : gmap string string) (request : RequestModel.t) (token : string)
    (s : State) :
  let providers := get_matching_providers config (RequestModel.model request) in
  let out := request_model client config environ request token s in
  let tr := attempts_since s (snd out) in
  (fst out = Raise (HTTPException 404 "No matching model found") <-> providers = [])
  /\ (fst out = Raise (HTTPException 500 "All providers failed")
      <-> providers ≠ [] /\ length tr = length providers /\ Forall failed tr)
  /\ (forall r, fst out = Ok r <-> exists a, last tr = Some a /\ at_result a = Ok r)
  /\ (forall e, fst out = Raise e ->
        e = HTTPException 404 "No matching model found"
        \/ e = HTTPException 500 "All providers failed").
Proof.
  intros providers out tr.
  destruct (decide (providers = [])) as [Hnil | Hne].
  - assert (Hout : fst out = Raise (HTTPException 404 "No matching model found")).
    { subst out. rewrite request_model_unfold. cbv zeta. fold providers.
      by rewrite Hnil. }
    assert (Htr : tr = []) by by apply request_model_no_attempts.
    rewrite Hout, Htr. repeat split; try done.
    + by intros [? _].
    + by intros (a & Ha & _).
    + intros e He. left. congruence.
  - pose proof (request_model_run client config environ request token s Hne)
      as (_ & _ & _ & _ & _ & Hres).
    fold providers out tr in Hres.
    destruct Hres as [(Hf & Hlen & Hfail) | (tr0 & a0 & r0 & Htr & Hfail & Hok & Hf)].
    + rewrite Hf. rewrite length_seqZ, Nat2Z.id in Hlen. repeat split; try done.
      * intros (a & Ha & Hr). apply last_Some_elem_of in Ha.
        rewrite Forall_forall in Hfail. by destruct (failed_ok a r Hr (Hfail a Ha)).
      * intros e He. right. congruence.
    + rewrite Hf. repeat split; try done.
      * intros (_ & _ & Hall). rewrite Htr, Forall_app, Forall_singleton in Hall.
        by destruct (failed_ok a0 r0 Hok (proj2 Hall)).
      * intros Hr. exists a0. rewrite Htr, last_snoc. split; [done | congruence].
      * intros (a & Ha & Hr). rewrite Htr, last_snoc in Ha. congruence.
Qed.

(** ** When the first attempt succeeds *)

Lemma request_payload_stream (request : RequestModel.t) (provider : Provider.t) :
  request_payload request provider !! "stream" = PyBool <$> RequestModel.stream request.
Proof.
  rewrite request_payload_lookup_common by done.
  rewrite set_if_not_none_lookup_ne by done. rewrite set_if_not_none_lookup.
  destruct (RequestModel.stream request); [done |]. by rewrite !lookup_insert_ne.
Qed.

Lemma first_attempt_success (client : Client) (config : list Provider.t)
    (environ : gmap string string) (request : RequestModel.t) (token : string)
    (s : State) :
  let providers := get_matching_providers config (RequestModel.model request) in
  let n := Z.of_nat (length providers) in
  let idx0 :=
    traversal_index (use_round_robin_enabled environ) (last_provider_index s) n 0 in
  let out := request_model client config environ request token s in
  providers ≠ [] ->
  (forall p, is_raise (attempt_result client request p (length (sent s))) = false) ->
  exists a,
    attempts_since s (snd out) = [a]
    /\ at_index a = idx0
    /\ providers !! Z.to_nat idx0 = Some (at_provider a)
    /\ at_result a = attempt_result client request (at_provider a) (length (sent s))
    /\ fst out = at_result a
    /\ last_provider_index (snd out) = idx0.
Proof.
  intros providers n idx0 out Hne Hgood.
  pose proof (request_model_run client config environ request token s Hne) as Hpost.
  pose proof (request_model_trace client config environ request token s) as [_ Htrace].
  fold providers n out in Hpost. fold out in Htrace.
  pose proof (sweep_head _ _ _ _ _ _ Hpost Hne) as Hhead. fold n idx0 in Hhead.
  destruct (sweep_cursor_is_last _ _ _ _ _ _ Hpost Hne) as (al & Hlast & Hcur & _).
  destruct Hpost as (_ & _ & _ & Hall & _ & Hres).
  destruct (attempts_since s (snd out)) as [|a tr'] eqn:Htr; [done |].
  simpl in Hhead. injection Hhead as Hidx.
  assert (Hra : at_result a
                = attempt_result client request (at_provider a) (length (sent s))).
  { rewrite (Htrace 0%nat a eq_refl). simpl. by rewrite calls_sent_nil, Nat.add_0_r. }
  assert (Hok : exists r, at_result a = Ok r).
  { specialize (Hgood (at_provider a)). rewrite <- Hra in Hgood.
    destruct (at_result a) as [r |]; [by exists r | done]. }
  destruct Hok as [r Hr].
  destruct Hres as [(_ & _ & Hfail) | (tr0 & a0 & r0 & Heq & Hfail & Hok0 & Hf)].
  { apply Forall_cons in Hfail as [Hfa _]. by destruct (failed_ok a r Hr). }
  assert (Hk : (tr0 ++ [a0])%list !! 0%nat = Some a) by by rewrite <- Heq.
  destruct (success_is_last tr0 a0 a r 0 Hfail Hk Hr) as [Hlen ->].
  destruct tr0; [| done]. simpl in Heq. injection Heq as ->.
  simpl in Hlast. injection Hlast as <-.
  apply Forall_cons in Hall as [[_ Hlook] _].
  exists a0. rewrite Hidx in Hlook. repeat split; try done; congruence.
Qed.

(** X7: a streaming request with a matching provider is answered at once with a
    [StreamingResponse] for the first provider of the computed order, after
    one attempt and with nothing sent while the request is handled; the
    payload that the response's generator will send carries [stream = True]. *)
Theorem streaming_defers_the_call (client : Client) (config : list Provider.t)
    (environ : gmap string string) (request : RequestModel.t) (token : string)
    (s : State) :
  let providers := get_matching_providers config (RequestModel.model request) in
  let n := Z.of_nat (length providers) in
  let idx0 :=
    traversal_index (use_round_robin_enabled environ) (last_provider_index s) n 0 in
  let out := request_model client config environ request token s in
  RequestModel.stream request = Some true ->
  providers ≠ [] ->
  exists p,
    providers !! Z.to_nat idx0 = Some p
    /\ fst out
       = Ok (StreamingResponse (FetchResponseStream (outbound_call request p))
               "text/event-stream")
    /\ sent (snd out) = sent s
    /\ length (attempts_since s (snd out)) = 1%nat
    /\ out_payload (outbound_call request p) !! "stream" = Some (PyBool true).
Proof.
  intros providers n idx0 out Hstream Hne.
  destruct (first_attempt_success client config environ request token s Hne)
    as (a & Htr & Hidx & Hlook & Hra & Hf & _).
  { intros p. unfold attempt_result. by rewrite Hstream. }
  fold providers n idx0 out in Htr, Hlook, Hf.
  pose proof (request_model_trace client config environ request token s) as [Hsent _].
  fold out in Hsent.
  exists (at_provider a). split; [done |]. split; [| split; [| split]].
  - rewrite Hf, Hra. unfold attempt_result. by rewrite Hstream.
  - rewrite Hsent. unfold calls_sent. by rewrite Hstream, app_nil_r.
  - by rewrite Htr.
  - simpl. by rewrite request_payload_stream, Hstream.
Qed.

Lemma streaming_defers_the_call_witness :
  fst (request_model Scenario.client_down Scenario.registry ∅
         (RequestModel.init Scenario.body_stream) "token" ModelRequestHandler_init)
  = Ok (StreamingResponse
          (FetchResponseStream
             (outbound_call (RequestModel.init Scenario.body_stream) Scenario.openai))
          "text/event-stream").
Proof.
  destruct (streaming_defers_the_call Scenario.client_down Scenario.registry ∅
              (RequestModel.init Scenario.body_stream) "token" ModelRequestHandler_init)
    as (p & Hp & Hout & _).
  - reflexivity.
  - discriminate.
  - injection Hp as <-. exact Hout.
Defined.

(** ** Sequential mode and round-robin across calls *)

(** X8: in sequential mode the cursor plays no part: with at least one matching
    provider, handling a request gives the same result and the same final
    state whatever value the cursor had before. *)
Theorem sequential_ignores_cursor (client : Client) (config : list Provider.t)
    (environ : gmap string string) (request : RequestModel.t) (token : string)
    (s : State) (c : Z) :
  use_round_robin_enabled environ = false ->
  get_matching_providers config (RequestModel.model request) ≠ [] ->
  request_model client config environ request token (with_cursor c s)
  = request_model client config environ request token s.
Proof.
  intros Hrr Hne. rewrite !request_model_unfold. cbv zeta. rewrite Hrr.
  destruct (get_matching_providers config (RequestModel.model request))
    as [|p rest]; [done |].
  unfold try_all_providers, bind, ret. cbv beta iota.
  rewrite (seqZ_cons 0 (Z.of_nat (length (p :: rest)))) by (simpl; lia).
  rewrite !try_loop_unfold. reflexivity.
Qed.

Lemma sequential_ignores_cursor_witness :
  request_model Scenario.client_first_down Scenario.registry ∅
    (RequestModel.init Scenario.body_plain) "token"
    (with_cursor 1 ModelRequestHandler_init)
  = request_model Scenario.client_first_down Scenario.registry ∅
      (RequestModel.init Scenario.body_plain) "token" ModelRequestHandler_init.
Proof.
  apply (sequential_ignores_cursor Scenario.client_first_down Scenario.registry ∅
           (RequestModel.init Scenario.body_plain) "token" ModelRequestHandler_init 1).
  - reflexivity.
  - discriminate.
Defined.

Lemma healthy_attempt_succeeds (client : Client) (request : RequestModel.t)
    (clock : nat) (p : Provider.t) :
  healthy client -> is_raise (attempt_result client request p clock) = false.
Proof.
  intros Hh. unfold attempt_result.
  destruct (Hh clock (outbound_call request p)) as (code & v & ->).
  by destruct (RequestModel.stream request) as [[|]|].
Qed.

Lemma healthy_round_robin_step (config : list Provider.t) (c : Incoming) (s : State) :
  let providers := get_matching_providers config (RequestModel.model (in_request c)) in
  let n := Z.of_nat (length providers) in
  providers ≠ [] ->
  use_round_robin_enabled (in_environ c) = true ->
  healthy (in_client c) ->
  last_provider_index s = -1 \/ last_provider_index s = n - 1 ->
  exists a,
    attempts (handle config c s) = (attempts s ++ [a])%list
    /\ at_index a = n - 1
    /\ last_provider_index (handle config c s) = n - 1.
Proof.
  intros providers n Hne Hrr Hh Hcur.
  assert (Hn : 0 < n) by (subst n; destruct providers; [done | simpl; lia]).
  destruct (first_attempt_success (in_client c) config (in_environ c) (in_request c)
              (in_token c) s Hne) as (a & Htr & Hidx & _ & _ & _ & Hlast).
  { intros p. by apply healthy_attempt_succeeds. }
  pose proof (request_model_run (in_client c) config (in_environ c) (in_request c)
                (in_token c) s Hne) as (Hatt & _).
  fold providers n in Hidx, Hlast. rewrite Hrr in Hidx, Hlast.
  assert (Hfirst : traversal_index true (last_provider_index s) n 0 = n - 1).
  { unfold traversal_index. destruct Hcur as [-> | ->].
    - by apply mod_minus_one.
    - rewrite Z.add_0_r. apply Z.mod_small. lia. }
  exists a. unfold handle. rewrite Htr in Hatt. simpl in Hatt.
  split; [exact Hatt |]. split; congruence.
Qed.

(** X9: round-robin does not rotate while providers answer: from a fresh
    handler, if every call runs with round-robin on, over the same non-empty
    matching list, and with a client whose POSTs all get a decodable answer,
    then each call makes exactly one attempt and every attempt is on the
    last provider of the list. *)
Theorem round_robin_sticks_while_healthy (config : list Provider.t)
    (providers : list Provider.t) (calls : list Incoming) :
  providers ≠ [] ->
  Forall (fun c =>
            use_round_robin_enabled (in_environ c) = true
            /\ healthy (in_client c)
            /\ get_matching_providers config (RequestModel.model (in_request c))
               = providers) calls ->
  Forall (fun a => at_index a = Z.of_nat (length providers) - 1)
    (attempts (serve config calls))
  /\ length (attempts (serve config calls)) = length calls.
Proof.
  intros Hne Hcalls. unfold serve.
  assert (Hgen : forall s,
            (last_provider_index s = -1
             \/ last_provider_index s = Z.of_nat (length providers) - 1) ->
            Forall (fun a => at_index a = Z.of_nat (length providers) - 1) (attempts s) ->
            Forall (fun a => at_index a = Z.of_nat (length providers) - 1)
              (attempts (fold_left (fun s c => handle config c s) calls s))
            /\ length (attempts (fold_left (fun s c => handle config c s) calls s))
               = (length (attempts s) + length calls)%nat).
  { induction calls as [|c calls IH]; intros s Hcur Hatt; simpl.
    - split; [done | lia].
    - apply Forall_cons in Hcalls as [(Hrr & Hh & Hm) Hrest].
      destruct (healthy_round_robin_step config c s) as (a & Ha & Hidx & Hlast);
        try rewrite Hm; try done.
      rewrite Hm in Hidx, Hlast.
      destruct (IH Hrest (handle config c s)) as [Hall Hlen].
      + by right.
      + rewrite Ha. apply Forall_app. split; [done | by apply Forall_singleton].
      + split; [done |]. rewrite Hlen, Ha, length_app. simpl. lia. }
  destruct (Hgen ModelRequestHandler_init) as [Hall Hlen];
    [by left | constructor |].
  split; [done | by rewrite Hlen].
Qed.

Lemma round_robin_sticks_while_healthy_witness :
  let twice :=
    [{| in_client := Scenario.client_first_overloaded;
        in_environ := Scenario.round_robin_on;
        in_request := RequestModel.init Scenario.body_plain;
        in_token := "token" |};
     {| in_client := Scenario.client_first_overloaded;
        in_environ := Scenario.round_robin_on;
        in_request := RequestModel.init Scenario.body_logprobs;
        in_token := "token" |}] in
  Forall (fun a => at_index a = 1) (attempts (serve Scenario.registry twice))
  /\ length (attempts (serve Scenario.registry twice)) = 2%nat.
Proof.
  intros twice.
  apply (round_robin_sticks_while_healthy Scenario.registry Scenario.registry twice).
  - discriminate.
  - assert (Hh : healthy Scenario.client_first_overloaded).
    { intros clock call. simpl.
      destruct (String.eqb _ _); [by exists 500, Scenario.overloaded |].
      by exists 200, Scenario.answer. }
    repeat constructor; exact Hh.
Defined.

(** ** The status code *)

Section StatusIgnored.

Variable client client' : Client.
Hypothesis Hsame :
  forall clock call, same_but_status (post client clock call) (post client' clock call).

Lemma process_request_same_but_status (request : RequestModel.t) (p : Provider.t)
    (s : State) :
  process_request client request p s = process_request client' request p s.
Proof.
  unfold process_request, bind, print, ret, fetch_response. simpl.
  destruct (RequestModel.stream request) as [[|]|]; try reflexivity;
    specialize (Hsame (length (sent s)) (outbound_call request p));
    unfold same_but_status in Hsame;
    destruct (post client _ _) as [msg | code [v |]],
             (post client' _ _) as [msg' | code' [v' |]];
    try done; congruence.
Qed.

Lemma try_loop_same_but_status (request : RequestModel.t) (providers : list Provider.t)
    (use_round_robin : bool) (num_providers start_index : Z) (range : list Z)
    (s : State) :
  try_loop client request providers use_round_robin num_providers start_index range s
  = try_loop client' request providers use_round_robin num_providers start_index
      range s.
Proof.
  revert s. induction range as [|i rest IH]; intros s; [reflexivity |].
  rewrite !try_loop_unfold. cbv zeta.
  destruct (py_getitem providers _) as [p |]; [| reflexivity].
  rewrite process_request_same_but_status.
  destruct (fst (process_request client' request p _)); [reflexivity | apply IH].
Qed.

End StatusIgnored.

(** X10: the status code of a provider's answer plays no part: two clients whose
    answers differ at most in their status codes lead to the same result,
    the same attempts, the same printed lines and the same requests sent.
    So an answer with status 500 and a JSON body is returned like one with
    status 200. *)
Theorem status_code_is_ignored (client client' : Client) (config : list Provider.t)
    (environ : gmap string string) (request : RequestModel.t) (token : string)
    (s : State) :
  (forall clock call,
     same_but_status (post client clock call) (post client' clock call)) ->
  request_model client config environ request token s
  = request_model client' config environ request token s.
Proof.
  intros Hsame. rewrite !request_model_unfold. cbv zeta.
  destruct (get_matching_providers config (RequestModel.model request)); [done |].
  unfold try_all_providers, bind.
  destruct (use_round_robin_enabled environ); simpl;
    by apply try_loop_same_but_status.
Qed.

Lemma status_code_is_ignored_witness :
  request_model Scenario.client_first_overloaded Scenario.registry ∅
    (RequestModel.init Scenario.body_plain) "token" ModelRequestHandler_init
  = request_model
      {| post := fun _ call =>
                   if String.eqb (out_url call) (Provider.base_url Scenario.openai)
                   then PostResponse 200 (Some Scenario.overloaded)
                   else PostResponse 503 (Some Scenario.answer);
         stream := fun _ _ => StreamRaises "unused" |}
      Scenario.registry ∅ (RequestModel.init Scenario.body_plain) "token"
      ModelRequestHandler_init.
Proof.
  apply (status_code_is_ignored Scenario.client_first_overloaded _ Scenario.registry ∅
           (RequestModel.init Scenario.body_plain) "token" ModelRequestHandler_init).
  intros clock call. simpl. by destruct (String.eqb _ _).
Defined.

(** ** The round-robin switch *)

Lemma ascii_lower_t (c : ascii) : ascii_lower c = "t"%char <-> c = "t"%char \/ c = "T"%char.
Proof.
  destruct c as [[] [] [] [] [] [] [] []]; vm_compute;
    (split; [intros H; first [discriminate H | by left | by right]
            | intros [H | H]; first [discriminate H | reflexivity]]).
Qed.

Lemma ascii_lower_r (c : ascii) : ascii_lower c = "r"%char <-> c = "r"%char \/ c = "R"%char.
Proof.
  destruct c as [[] [] [] [] [] [] [] []]; vm_compute;
    (split; [intros H; first [discriminate H | by left | by right]
            | intros [H | H]; first [discriminate H | reflexivity]]).
Qed.

Lemma ascii_lower_u (c : ascii) : ascii_lower c = "u"%char <-> c = "u"%char \/ c = "U"%char.
Proof.
  destruct c as [[] [] [] [] [] [] [] []]; vm_compute;
    (split; [intros H; first [discriminate H | by left | by right]
            | intros [H | H]; first [discriminate H | reflexivity]]).
Qed.

Lemma ascii_lower_e (c : ascii) : ascii_lower c = "e"%char <-> c = "e"%char \/ c = "E"%char.
Proof.
  destruct c as [[] [] [] [] [] [] [] []]; vm_compute;
    (split; [intros H; first [discriminate H | by left | by right]
            | intros [H | H]; first [discriminate H | reflexivity]]).
Qed.

Lemma str_lower_true (v : string) :
  str_lower v = "true"
  <-> exists c1 c2 c3 c4,
        v = String c1 (String c2 (String c3 (String c4 EmptyString)))
        /\ (c1 = "t" \/ c1 = "T")%char /\ (c2 = "r" \/ c2 = "R")%char
        /\ (c3 = "u" \/ c3 = "U")%char /\ (c4 = "e" \/ c4 = "E")%char.
Proof.
  split.
  - destruct v as [|c1 [|c2 [|c3 [|c4 [|c5 v]]]]]; simpl; intros H; try discriminate H.
    injection H as H1 H2 H3 H4.
    exists c1, c2, c3, c4. split; [done |].
    by rewrite <- ascii_lower_t, <- ascii_lower_r, <- ascii_lower_u, <- ascii_lower_e.
  - intros (c1 & c2 & c3 & c4 & -> & H1 & H2 & H3 & H4). simpl.
    apply ascii_lower_t in H1. apply ascii_lower_r in H2.
    apply ascii_lower_u in H3. apply ascii_lower_e in H4.
    by rewrite H1, H2, H3, H4.
Qed.

(** X11: round-robin is on exactly when the environment variable
    [USE_ROUND_ROBIN] is set to the word "true" in any mix of upper and lower
    case; unset, or set to anything else ("1", "yes", "true" with a space),
    the traversal is sequential. *)
Theorem round_robin_switch (environ : gmap string string) :
  use_round_robin_enabled environ = true
  <-> exists c1 c2 c3 c4,
        environ !! "USE_ROUND_ROBIN"
        = Some (String c1 (String c2 (String c3 (String c4 EmptyString))))
        /\ (c1 = "t" \/ c1 = "T")%char /\ (c2 = "r" \/ c2 = "R")%char
        /\ (c3 = "u" \/ c3 = "U")%char /\ (c4 = "e" \/ c4 = "E")%char.
Proof.
  unfold use_round_robin_enabled. rewrite String.eqb_eq.
  destruct (environ !! "USE_ROUND_ROBIN") as [v |] eqn:Hv; simpl.
  - rewrite str_lower_true. split.
    + intros (c1 & c2 & c3 & c4 & -> & H). by exists c1, c2, c3, c4.
    + intros (c1 & c2 & c3 & c4 & Heq & H). injection Heq as ->.
      by exists c1, c2, c3, c4.
  - split; [by intros H | by intros (? & ? & ? & ? & ? & _)].
Qed.

(** ** Flattening and concatenation *)

Lemma spaced_app (a b : list string) :
  spaced (a ++ b)
  = match a, b with
    | [], _ => spaced b
    | _, [] => spaced a
    | _ :: _, _ :: _ => spaced a +:+ " " +:+ spaced b
    end.
Proof.
  induction a as [|t a IH]; [reflexivity |].
  destruct b as [|u b]; [by rewrite app_nil_r |].
  destruct a as [|t' a].
  - reflexivity.
  - change (spaced ((t :: t' :: a) ++ u :: b))
      with (t +:+ " " +:+ spaced ((t' :: a) ++ u :: b)).
    rewrite IH.
    change (spaced (t :: t' :: a)) with (t +:+ " " +:+ spaced (t' :: a)).
    by rewrite !append_assoc.
Qed.

(** X12: flattening a list of parts put together from two lists gives the two
    flattened texts with one space between them, or just the one that is
    there when the other list has no part of type "text"; and parts of any
    other type can be removed without changing the result. *)
Theorem flatten_content_app (parts parts' : list ContentItem.t) :
  flatten_content (ContentList (parts ++ parts'))
  = (if existsb is_text_part parts && existsb is_text_part parts'
     then flatten_content (ContentList parts) +:+ " "
          +:+ flatten_content (ContentList parts')
     else flatten_content (ContentList parts) +:+ flatten_content (ContentList parts'))
  /\ flatten_content (ContentList (List.filter is_text_part parts))
     = flatten_content (ContentList parts).
Proof.
  assert (Hex : forall l, existsb is_text_part l = false ->
                  List.filter is_text_part l = []).
  { induction l as [|p l IH]; simpl; [done |].
    destruct (is_text_part p); simpl; [done | exact IH]. }
  assert (Hex' : forall l, existsb is_text_part l = true ->
                   map ContentItem.text (List.filter is_text_part l) ≠ []).
  { induction l as [|p l IH]; simpl; [done |].
    destruct (is_text_part p); simpl; [done | exact IH]. }
  split.
  - rewrite !flatten_content_spec. unfold spec_flatten.
    rewrite List.filter_app, map_app, spaced_app.
    destruct (existsb is_text_part parts) eqn:H1;
      destruct (existsb is_text_part parts') eqn:H2; simpl.
    + apply Hex' in H1. apply Hex' in H2.
      destruct (map _ (List.filter _ parts)); [done |].
      by destruct (map _ (List.filter _ parts')).
    + rewrite (Hex _ H2). simpl. rewrite append_empty_r.
      by destruct (map _ (List.filter _ parts)).
    + by rewrite (Hex _ H1).
    + by rewrite (Hex _ H1), (Hex _ H2).
  - rewrite !flatten_content_spec. unfold spec_flatten. f_equal. f_equal.
    induction parts as [|p parts IH]; simpl; [done |].
    destruct (is_text_part p) eqn:Hp; simpl; [by rewrite Hp, IH | exact IH].
Qed.

(** ** Failover reaches a provider that answers *)

(** X13: if some registry entry lists the requested model and answers whenever
    it is asked (for a buffered request: its POST never raises and its body
    always decodes), the request is answered with a response: neither the
    404 nor the 500 can come out, whatever the other providers do, in either
    mode and from any cursor. *)
Theorem failover_reaches_working_provider (client : Client)
    (config : list Provider.t) (environ : gmap string string)
    (request : RequestModel.t) (token : string) (s : State) (p : Provider.t) :
  p ∈ config ->
  RequestModel.model request ∈ Provider.model p ->
  (forall clock, is_raise (attempt_result client request p clock) = false) ->
  exists r, fst (request_model client config environ request token s) = Ok r.
Proof.
  intros Hp Hmodel Hworks.
  set (providers := get_matching_providers config (RequestModel.model request)).
  set (out := request_model client config environ request token s).
  set (tr := attempts_since s (snd out)).
  assert (Hin : p ∈ providers) by by apply matching_elem_of.
  assert (Hne : providers ≠ []).
  { intros Hnil. rewrite Hnil in Hin. by apply not_elem_of_nil in Hin. }
  pose proof (request_model_run client config environ request token s Hne)
    as (_ & _ & Hidx & Hall & _ & Hres).
  pose proof (request_model_trace client config environ request token s) as [_ Htrace].
  fold providers out tr in Hidx, Hall, Hres, Htrace.
  destruct Hres as [(_ & Hlen & Hfail) | (tr0 & a0 & r0 & _ & _ & _ & Hf)];
    [| by exists r0].
  exfalso.
  apply list_elem_of_lookup in Hin as (i & Hi).
  assert (Hi' : Z.of_nat i ∈ at_index <$> tr).
  { rewrite Hidx, Hlen, take_ge by by rewrite length_fmap.
    apply (traversal_order_elem_of (use_round_robin_enabled environ)
             (last_provider_index s) (Z.of_nat (length providers))).
    apply lookup_lt_Some in Hi. lia. }
  apply list_elem_of_fmap in Hi' as (a & Hai & Ha).
  rewrite Forall_forall in Hall. destruct (Hall a Ha) as [_ Hlook].
  rewrite <- Hai, Nat2Z.id, Hi in Hlook. injection Hlook as Hpa.
  apply list_elem_of_lookup in Ha as Hj. destruct Hj as (j & Hj).
  rewrite Forall_forall in Hfail. specialize (Hfail a Ha). unfold failed in Hfail.
  rewrite (Htrace j a Hj), <- Hpa, Hworks in Hfail. done.
Qed.

Lemma failover_reaches_working_provider_witness :
  exists r,
    fst (request_model Scenario.client_first_down Scenario.registry
           Scenario.round_robin_on (RequestModel.init Scenario.body_plain) "token"
           ModelRequestHandler_init) = Ok r.
Proof.
  apply (failover_reaches_working_provider Scenario.client_first_down
           Scenario.registry Scenario.round_robin_on
           (RequestModel.init Scenario.body_plain) "token" ModelRequestHandler_init
           Scenario.anthropic).
  - right. left.
  - left.
  - intros clock. reflexivity.
Defined.

(** ** Authentication *)

Lemma request_model_raises_only (client : Client) (config : list Provider.t)
    (environ : gmap string string) (request : RequestModel.t) (token : string)
    (s : State) (e : Exn) :
  fst (request_model client config environ request token s) = Raise e ->
  e = HTTPException 404 "No matching model found"
  \/ e = HTTPException 500 "All providers failed".
Proof.
  intros He.
  destruct (decide (get_matching_providers config (RequestModel.model request) = []))
    as [Hnil | Hne].
  - rewrite request_model_unfold in He. cbv zeta in He. rewrite Hnil in He.
    left. simpl in He. congruence.
  - pose proof (request_model_run client config environ request token s Hne)
      as (_ & _ & _ & _ & _ & [(Hf & _) | (tr0 & a0 & r0 & _ & _ & _ & Hf)]).
    + right. congruence.
    + congruence.
Qed.

(** X1: a token that is not in the key table is refused with the 403 before
    the handler runs: nothing is printed or sent, no attempt is made and the
    cursor keeps its value.  A token of the table is passed on and the
    endpoint does exactly what the handler does.  With the table of the
    source, which holds one key, the endpoint answers 403 exactly when the
    token is not that key. *)
Theorem endpoint_authentication (keys : gmap string string) (client : Client)
    (config : list Provider.t) (environ : gmap string string)
    (request : RequestModel.t) (c : HTTPAuthorizationCredentials) (s : State) :
  App.request_model keys client config environ request c s
  = match keys !! credentials c with
    | None => (Raise (HTTPException 403 "Invalid or missing API Key"), s)
    | Some _ => request_model client config environ request (credentials c) s
    end
  /\ (fst (App.request_model api_keys_db client config environ request c s)
      = Raise (HTTPException 403 "Invalid or missing API Key")
      <-> credentials c ≠ "sk-KjjI60Yf0JFcsvgRmXqFwgGmWUd9GZnmi3KlvowmRWpWpQRo").
Proof.
  assert (Heq : forall keys,
            App.request_model keys client config environ request c s
            = match keys !! credentials c with
              | None => (Raise (HTTPException 403 "Invalid or missing API Key"), s)
              | Some _ => request_model client config environ request (credentials c) s
              end).
  { intros k. unfold App.request_model, bind, verify_api_key.
    by destruct (k !! credentials c). }
  split; [apply Heq |].
  rewrite Heq. unfold api_keys_db.
  destruct (decide (credentials c
                    = "sk-KjjI60Yf0JFcsvgRmXqFwgGmWUd9GZnmi3KlvowmRWpWpQRo"))
    as [Hkey | Hkey].
  - rewrite Hkey, lookup_singleton_eq. split; [| done].
    intros He. by destruct (request_model_raises_only _ _ _ _ _ _ _ He).
  - rewrite lookup_singleton_ne by done. by split.
Qed.

(** * Overlapping requests *)

(** ** One request at a time: the tasks do what the handler does *)

Lemma finish_finished (client : Client) (fuel : nat) (r : Result Response)
    (s : State) :
  finish client fuel (Finished r, s) = Some (r, s).
Proof. by destruct fuel. Qed.

Lemma sweep_from_finish (client : Client) (request : RequestModel.t)
    (providers : list Provider.t) (use_round_robin : bool) (start_index : Z)
    (range : list Z) (s : State) :
  finish client (length range)
    (sweep_from request providers use_round_robin start_index range s)
  = Some (try_loop client request providers use_round_robin
            (Z.of_nat (length providers)) start_index range s).
Proof.
  revert s. induction range as [|i rest IH]; intros s; [reflexivity |].
  rewrite try_loop_unfold. cbv zeta. unfold sweep_from. fold sweep_from.
  change (last_provider_index (with_cursor ?x s)) with x.
  unfold traversal_index.
  set (idx := if use_round_robin
              then (start_index + i) `mod` Z.of_nat (length providers) else i).
  destruct (py_getitem providers idx) as [p |]; [| reflexivity].
  unfold process_request, bind, print, ret, fetch_response. simpl.
  destruct (RequestModel.stream request) as [[|]|]; simpl; try reflexivity;
    unfold resume; simpl;
    destruct (post client _ _) as [msg | code [v |]]; simpl;
    first [apply finish_finished | apply IH].
Qed.

Lemma arrive_finish (client : Client) (config : list Provider.t)
    (environ : gmap string string) (request : RequestModel.t) (token : string)
    (s : State) :
  finish client
    (length (get_matching_providers config (RequestModel.model request)))
    (arrive config environ request s)
  = Some (request_model client config environ request token s).
Proof.
  rewrite request_model_unfold. unfold arrive. cbv zeta.
  destruct (get_matching_providers config (RequestModel.model request))
    as [|p rest]; [reflexivity |].
  set (providers := p :: rest).
  set (s0 := snd (print (LogMatching providers) s)).
  pose proof (sweep_from_finish client request providers
                (use_round_robin_enabled environ)
                (if use_round_robin_enabled environ then last_provider_index s0 else 0)
                (seqZ 0 (Z.of_nat (length providers))) s0) as Hfin.
  rewrite length_seqZ, Nat2Z.id in Hfin. rewrite Hfin. f_equal.
  unfold try_all_providers, bind.
  by destruct (use_round_robin_enabled environ).
Qed.

(** ** What every schedule keeps *)

Section Schedules.

Variable client : Client.
Variable config : list Provider.t.

Lemma sweep_from_ok (request : RequestModel.t) (use_round_robin : bool)
    (start_index : Z) (range : list Z) (s : State) :
  let providers := get_matching_providers config (RequestModel.model request) in
  let out := sweep_from request providers use_round_robin start_index range s in
  Forall (fun i => 0 <= i < Z.of_nat (length providers)) range ->
  -1 <= last_provider_index s ->
  Forall (attempt_ok config) (attempts s) ->
  -1 <= last_provider_index (snd out)
  /\ Forall (attempt_ok config) (attempts (snd out))
  /\ progress_ok config (fst out).
Proof.
  intros providers out Hrange Hcur Hatt. subst out.
  destruct range as [|i rest]; [by repeat split |].
  apply Forall_cons in Hrange as [Hi Hrest].
  unfold sweep_from.
  change (last_provider_index (with_cursor ?x s)) with x.
  pose proof (traversal_index_range use_round_robin start_index
                (Z.of_nat (length providers)) i Hi) as Hidx.
  unfold traversal_index in Hidx.
  set (idx := if use_round_robin
              then (start_index + i) `mod` Z.of_nat (length providers) else i) in *.
  destruct (py_getitem_in_range providers idx Hidx) as (p & -> & Hlook).
  destruct (RequestModel.stream request) as [[|]|]; simpl;
    (split; [lia |]); (split; [| try done]);
    try done.
  - apply Forall_app. split; [done |]. apply Forall_singleton.
    split; [done |]. exists request. simpl. fold providers. split; [lia | done].
  - repeat split; try done; simpl; lia.
  - repeat split; try done; simpl; lia.
Qed.

Lemma resume_ok (k : Suspended) (s : State) :
  sweep_ok config k ->
  -1 <= last_provider_index s ->
  Forall (attempt_ok config) (attempts s) ->
  -1 <= last_provider_index (snd (resume client k s))
  /\ Forall (attempt_ok config) (attempts (snd (resume client k s)))
  /\ progress_ok config (fst (resume client k s)).
Proof.
  intros (Hprov & Hidx & Hlook & Hrest) Hcur Hatt. unfold resume. cbv zeta.
  set (r := match post client _ _ with
            | PostRaises msg => Raise (TransportError msg)
            | PostResponse _ (Some v) => Ok (JSONBody v)
            | PostResponse _ None => Raise JSONDecodeError
            end).
  assert (Hnew : Forall (attempt_ok config)
                   (attempts s ++ [{| at_index := sw_index k; at_cursor := sw_index k;
                                     at_provider := sw_provider k;
                                     at_result := r |}])%list).
  { apply Forall_app. split; [done |]. apply Forall_singleton.
    split; [done |]. exists (sw_request k). simpl. rewrite <- Hprov. by split. }
  destruct r as [resp | e]; [by repeat split |].
  rewrite Hprov. apply sweep_from_ok; [by rewrite <- Hprov | done | done].
Qed.

Lemma arrive_ok (environ : gmap string string) (request : RequestModel.t) (s : State) :
  -1 <= last_provider_index s ->
  Forall (attempt_ok config) (attempts s) ->
  -1 <= last_provider_index (snd (arrive config environ request s))
  /\ Forall (attempt_ok config) (attempts (snd (arrive config environ request s)))
  /\ progress_ok config (fst (arrive config environ request s)).
Proof.
  intros Hcur Hatt. unfold arrive. cbv zeta.
  destruct (get_matching_providers config (RequestModel.model request))
    as [|p rest] eqn:Hm; [by repeat split |].
  rewrite <- Hm. apply sweep_from_ok; [| done | done].
  apply Forall_seqZ. intros i Hi. lia.
Qed.

Lemma step_ok (ev : Event) (srv : Server) :
  server_ok config srv -> server_ok config (step client config ev srv).
Proof.
  intros (Hcur & Hatt & Htasks). destruct ev as [environ request | t]; simpl.
  - destruct (arrive_ok environ request (shared srv) Hcur Hatt) as (H1 & H2 & H3).
    repeat split; try done. simpl. apply Forall_app. split; [done |].
    by apply Forall_singleton.
  - destruct (tasks srv !! t) as [[r | k] |] eqn:Ht; [by repeat split | | by repeat split].
    assert (Hk : sweep_ok config k).
    { rewrite Forall_forall in Htasks.
      apply (Htasks (Awaiting k)). by apply list_elem_of_lookup_2 in Ht. }
    destruct (resume_ok k (shared srv) Hk Hcur Hatt) as (H1 & H2 & H3).
    repeat split; try done. simpl. by apply Forall_insert.
Qed.

Lemma run_ok (evs : list Event) : server_ok config (run client config evs).
Proof.
  unfold run.
  assert (Hgen : forall srv, server_ok config srv ->
            server_ok config
              (fold_left (fun srv ev => step client config ev srv) evs srv)).
  { induction evs as [|ev evs IH]; intros srv Hsrv; simpl; [done |].
    apply IH. by apply step_ok. }
  apply Hgen. repeat split; simpl; [lia | constructor | constructor].
Qed.

End Schedules.

(** C9, as the code has it: the cursor starts at -1 and never goes below it.
    When requests are handled one after the other, every attempt of a sweep
    over n matching providers, in either mode, is made with the cursor at
    its index, which lies in [0, n-1], so after the sweep the cursor lies in
    [-1, n-1] (indeed in [0, n-1]); a request with no matching provider
    makes no sweep and leaves the cursor as it was.  When requests overlap
    at the wait for a provider's answer, in every schedule the cursor still
    never goes below -1 and every attempt, made or under way, is at an index
    in [0, n-1] of the matching list of its own request, with the cursor set
    to that index when the attempt starts; and a task that is never
    interleaved with another does what the handler does. *)
Theorem C9_cursor_invariant (config : list Provider.t) (calls : list Incoming)
    (c : Incoming) :
  let s := serve config calls in
  let s' := handle config c s in
  let providers := get_matching_providers config (RequestModel.model (in_request c)) in
  let n := Z.of_nat (length providers) in
  last_provider_index ModelRequestHandler_init = -1
  /\ -1 <= last_provider_index s
  /\ Forall (fun a => 0 <= at_index a <= n - 1 /\ at_cursor a = at_index a)
       (attempts_since s s')
  /\ match providers with
     | [] => last_provider_index s' = last_provider_index s
     | _ :: _ => -1 <= last_provider_index s' <= n - 1 /\ 0 <= last_provider_index s'
     end
  /\ (forall client evs,
        -1 <= last_provider_index (shared (run client config evs))
        /\ Forall (attempt_ok config) (attempts (shared (run client config evs)))
        /\ Forall (progress_ok config) (tasks (run client config evs)))
  /\ (forall client environ request token s0,
        finish client
          (length (get_matching_providers config (RequestModel.model request)))
          (arrive config environ request s0)
        = Some (request_model client config environ request token s0)).
Proof.
  intros s s' providers n.
  split; [reflexivity |]. split; [by apply fold_handle_cursor_lower |].
  pose proof (request_model_cursor (in_client c) config (in_environ c)
                (in_request c) (in_token c) s) as [Hatt Hcur].
  cbv zeta in Hatt, Hcur. fold providers n in Hatt, Hcur.
  split; [exact Hatt |]. split; [| split].
  - subst s'. unfold handle. destruct providers; [done | lia].
  - intros client evs. apply (run_ok client config evs).
  - intros client environ request token s0. apply arrive_finish.
Qed.

(** C9 as stated does not hold when sweeps overlap.  A request whose model
    matches one provider waits for its answer; meanwhile a request whose
    model matches three providers fails on the first two and waits on the
    third, with the cursor at 2; then the first request's answer arrives and
    its sweep returns, over a matching set of size 1, with the cursor at 2,
    outside [-1, 0]. *)
Lemma C9_counterexample :
  let before := run Overlap.client Overlap.registry (take 4 Overlap.schedule) in
  let srv := run Overlap.client Overlap.registry Overlap.schedule in
  length (get_matching_providers Overlap.registry (RequestModel.model Overlap.small))
  = 1%nat
  /\ (exists k, tasks before !! 0%nat = Some (Awaiting k)
                /\ sw_request k = Overlap.small)
  /\ tasks srv !! 0%nat = Some (Finished (Ok (JSONBody Scenario.answer)))
  /\ last_provider_index (shared srv) = 2
  /\ ~ (-1 <= last_provider_index (shared srv) <= 1 - 1).
Proof.
  split; [reflexivity |]. split; [| split; [| split]].
  - eexists. split; vm_compute; reflexivity.
  - vm_compute. reflexivity.
  - vm_compute. reflexivity.
  - assert (H : last_provider_index
                  (shared (run Overlap.client Overlap.registry Overlap.schedule)) = 2)
      by (vm_compute; reflexivity).
    rewrite H. lia.
Qed.
